(** * sentry-nodestore-mongodb: the tiered node storage

    A shallow embedding of [sentry_nodestore_mongodb/backend.py]
    (class [MongoNodeStorage]).  The MongoDB collection and the S3 bucket
    are external services; they are modelled as finite maps held in a
    [World], and every client call goes through [client_call], which lets
    the service fail with an injected exception and records the call
    together with the contents of both tiers after it. *)

From Stdlib Require Import ZArith String List Lia.
From stdpp Require Import base option list strings gmap.

Abbreviation bytes := (list Byte.byte).

(** ** Exceptions *)

(** The exceptions the source names, plus one representative for every
    other failure of each client ([ConnectionFailure] for pymongo,
    [ClientError] for botocore) and for a codec that rejects its input. *)
Inductive exn :=
| KeyError (k : string)
| DuplicateKeyError (msg : string)
| OperationFailure (msg : string)
| ConnectionFailure (msg : string)
| NoSuchKey
| ClientError (code : string)
| CodecError.

(** [str(e)] *)
Definition str (e : exn) : string :=
  match e with
  | KeyError k => k
  | DuplicateKeyError msg | OperationFailure msg | ConnectionFailure msg => msg
  | NoSuchKey => "NoSuchKey"
  | ClientError code => code
  | CodecError => "CodecError"
  end.

(** pymongo: [DuplicateKeyError] derives from [WriteError], which derives
    from [OperationFailure]. *)
Definition isinstance_OperationFailure (e : exn) : bool :=
  match e with
  | OperationFailure _ | DuplicateKeyError _ => true
  | _ => false
  end.

Definition isinstance_DuplicateKeyError (e : exn) : bool :=
  match e with DuplicateKeyError _ => true | _ => false end.

Definition isinstance_NoSuchKey (e : exn) : bool :=
  match e with NoSuchKey => true | _ => false end.

(** Python's [needle in hay] on [str]. *)
Fixpoint contains (needle hay : string) : bool :=
  String.prefix needle hay ||
  match hay with
  | EmptyString => false
  | String _ rest => contains needle rest
  end.

(** ** Data model *)

(** [sentry.utils.codecs.Codec[bytes, bytes]]; decoding may reject its
    input ([None] stands for the exception the codec raises). *)
Record Codec := {
  encode : bytes → bytes;
  decode : bytes → option bytes;
}.

(** A document as [_set_bytes] builds it; [created_day] is a UTC
    timestamp in seconds since the epoch. *)
Record Doc := {
  _id : string;
  data : bytes;
  content_encoding : string;
  created_day : Z;
}.

(** What the collection keeps under an [_id]. *)
Record Entry := {
  e_data : bytes;
  e_content_encoding : string;
  e_created_day : Z;
}.

Definition entry_of (d : Doc) : Entry :=
  {| e_data := data d; e_content_encoding := content_encoding d;
     e_created_day := created_day d |}.

Definition doc_of (id : string) (e : Entry) : Doc :=
  {| _id := id; data := e_data e; content_encoding := e_content_encoding e;
     created_day := e_created_day e |}.

(** The response of [get_object]: the body and the [ContentEncoding]
    metadata, which may be missing. *)
Record S3Object := {
  Body : bytes;
  ContentEncoding : option string;
}.

(** The client calls the source makes. *)
Inductive Call :=
| create_index_call (name : string) (expireAfterSeconds : Z)
| drop_index_call (name : string)
| insert_one_call (id : string)
| update_one_call (id : string)
| find_one_call (id : string)
| find_call (ids : list string)
| delete_one_call (id : string)
| delete_many_call (ids : list string)
| get_object_call (Bucket Key : string)
| delete_object_call (Bucket Key : string).

(** One entry of the trace: the call and both tiers once it is over. *)
Record Event := {
  ev_call : Call;
  ev_collection : gmap string Entry;
  ev_bucket : gmap (string * string) S3Object;
}.

(** The world outside the engine.  [indexes] maps an index name to its
    [expireAfterSeconds]; [bucket] is keyed by bucket name and key;
    [faults] is the script of injected failures, one entry per client
    call ([None] or an exhausted script: the call behaves normally). *)
Record World := {
  collection : gmap string Entry;
  indexes : gmap string Z;
  bucket : gmap (string * string) S3Object;
  utcnow : Z;
  faults : list (option exn);
  trace : list Event;
}.

Definition set_collection (c : gmap string Entry) (w : World) : World :=
  {| collection := c; indexes := indexes w; bucket := bucket w;
     utcnow := utcnow w; faults := faults w; trace := trace w |}.

Definition set_indexes (i : gmap string Z) (w : World) : World :=
  {| collection := collection w; indexes := i; bucket := bucket w;
     utcnow := utcnow w; faults := faults w; trace := trace w |}.

Definition set_bucket (b : gmap (string * string) S3Object) (w : World) : World :=
  {| collection := collection w; indexes := indexes w; bucket := b;
     utcnow := utcnow w; faults := faults w; trace := trace w |}.

Definition set_faults (f : list (option exn)) (w : World) : World :=
  {| collection := collection w; indexes := indexes w; bucket := bucket w;
     utcnow := utcnow w; faults := f; trace := trace w |}.

Definition record_call (c : Call) (w : World) : World :=
  {| collection := collection w; indexes := indexes w; bucket := bucket w;
     utcnow := utcnow w; faults := faults w;
     trace := trace w ++ [ {| ev_call := c; ev_collection := collection w;
                              ev_bucket := bucket w |} ] |}.

(** ** The monad of engine operations: state and exceptions *)

Inductive Result (A : Type) :=
| Ok (a : A)
| Raise (e : exn).
Arguments Ok {A} a.
Arguments Raise {A} e.

Definition M (A : Type) : Type := World → Result A * World.

Definition ret {A} (a : A) : M A := λ w, (Ok a, w).

Definition raise {A} (e : exn) : M A := λ w, (Raise e, w).

Definition bind {A B} (m : M A) (k : A → M B) : M B := λ w,
  match m w with
  | (Ok a, w') => k a w'
  | (Raise e, w') => (Raise e, w')
  end.

(** [try: body  except E: handler]; [handler e] is [None] when [e] is not
    an instance of the class the clause names. *)
Definition try_except {A} (body : M A) (handler : exn → option (M A)) : M A := λ w,
  match body w with
  | (Ok a, w') => (Ok a, w')
  | (Raise e, w') =>
      match handler e with
      | Some h => h w'
      | None => (Raise e, w')
      end
  end.

#[global] Instance M_ret : MRet M := @ret.
#[global] Instance M_bind : MBind M := λ A B k m, bind m k.

(** A call to one of the two clients: the next entry of the fault script
    decides whether the service fails; the call is recorded once done. *)
Definition client_call {A} (c : Call) (op : M A) : M A := λ w,
  match faults w with
  | Some e :: rest => (Raise e, record_call c (set_faults rest w))
  | None :: rest => let '(r, w') := op (set_faults rest w) in (r, record_call c w')
  | [] => let '(r, w') := op w in (r, record_call c w')
  end.

(** ** The MongoDB collection (pymongo) *)

Definition insert_one (doc : Doc) : M unit :=
  client_call (insert_one_call (_id doc)) (λ w,
    match collection w !! _id doc with
    | Some _ => (Raise (DuplicateKeyError "E11000 duplicate key error collection"), w)
    | None => (Ok tt, set_collection (<[_id doc := entry_of doc]> (collection w)) w)
    end).

(** [update_one({'_id': id}, {'$set': doc})]: every field of the matched
    document is set from [doc]; without a match nothing happens (the call
    is not an upsert); MongoDB refuses to change [_id]. *)
Definition update_one (id : string) (doc : Doc) : M unit :=
  client_call (update_one_call id) (λ w,
    match collection w !! id with
    | Some _ =>
        if decide (_id doc = id)
        then (Ok tt, set_collection (<[id := entry_of doc]> (collection w)) w)
        else (Raise (OperationFailure "Performing an update on the path '_id' would modify the immutable field '_id'"), w)
    | None => (Ok tt, w)
    end).

Definition find_one (id : string) : M (option Doc) :=
  client_call (find_one_call id) (λ w, (Ok (doc_of id <$> collection w !! id), w)).

(** [find({'_id': {'$in': ids}})]: the matching documents, each once. *)
Definition find (ids : list string) : M (list Doc) :=
  client_call (find_call ids) (λ w,
    (Ok ((λ kv, doc_of kv.1 kv.2) <$>
           map_to_list (filter (λ kv, kv.1 ∈ ids) (collection w))), w)).

Definition delete_one (id : string) : M unit :=
  client_call (delete_one_call id) (λ w,
    (Ok tt, set_collection (delete id (collection w)) w)).

Definition delete_many (ids : list string) : M unit :=
  client_call (delete_many_call ids) (λ w,
    (Ok tt, set_collection (filter (λ kv, kv.1 ∉ ids) (collection w)) w)).

(** [create_index([("created_day", ASCENDING)], expireAfterSeconds, name)]:
    creating an index that exists with the same options does nothing;
    with other options the server answers IndexOptionsConflict. *)
Definition create_index (expireAfterSeconds : Z) (name : string) : M unit :=
  client_call (create_index_call name expireAfterSeconds) (λ w,
    match indexes w !! name with
    | None => (Ok tt, set_indexes (<[name := expireAfterSeconds]> (indexes w)) w)
    | Some secs =>
        if decide (secs = expireAfterSeconds) then (Ok tt, w)
        else (Raise (OperationFailure
                ("Index with name: " +:+ name +:+ " already exists with different options")), w)
    end).

Definition drop_index (name : string) : M unit :=
  client_call (drop_index_call name) (λ w,
    match indexes w !! name with
    | Some _ => (Ok tt, set_indexes (delete name (indexes w)) w)
    | None => (Raise (OperationFailure ("index not found with name [" +:+ name +:+ "]")), w)
    end).

(** ** The S3 bucket (boto3) *)

Definition get_object (Key Bucket : string) : M S3Object :=
  client_call (get_object_call Bucket Key) (λ w,
    match bucket w !! (Bucket, Key) with
    | Some obj => (Ok obj, w)
    | None => (Raise NoSuchKey, w)
    end).

(** The source expects [NoSuchKey] from a delete whose key is gone (its
    [except] clause around [delete_object]). *)
Definition delete_object (Key Bucket : string) : M unit :=
  client_call (delete_object_call Bucket Key) (λ w,
    match bucket w !! (Bucket, Key) with
    | Some _ => (Ok tt, set_bucket (delete (Bucket, Key) (bucket w)) w)
    | None => (Raise NoSuchKey, w)
    end).

(** [datetime.combine(d.date(), datetime.min.time())], on seconds since
    the epoch: the start of the UTC day of [d]. *)
Definition utc_midnight (d : Z) : Z := (d - d `mod` 86400)%Z.

(** [datetime.combine(datetime.utcnow().date(), datetime.min.time())] *)
Definition utcnow_midnight : M Z := λ w, (Ok (utc_midnight (utcnow w)), w).

(** ** MongoNodeStorage *)

(** The attributes [__init__] keeps on [self] and the methods read.
    [bucket_name] is given whenever [read_from_s3] is set. *)
Record MongoNodeStorage := {
  default_ttl_days : option Z;
  compression : option string;
  read_from_s3 : bool;
  bucket_name : string;
  bucket_path : option string;
}.

Section Engine.

(** [ZstdCodec()] of [sentry.utils.codecs]. *)
Variable ZstdCodec : Codec.

Definition compression_strategies : gmap string Codec :=
  {[ "zstd" := ZstdCodec ]}.

Variable self : MongoNodeStorage.

(** [codec.decode(data) if codec else data] *)
Definition decode_if (codec : option Codec) (data : bytes) : M bytes :=
  match codec with
  | Some c =>
      match decode c data with
      | Some v => mret v
      | None => raise CodecError
      end
  | None => mret data
  end.

(** The part of [__init__] that talks to the collection: the TTL index. *)
Definition __init__ : M unit :=
  match default_ttl_days self with
  | Some days =>
      if decide (days = 0%Z) then mret tt
      else
        try_except
          (create_index (days * 24 * 3600) "created_day_ttl")
          (λ e,
             if isinstance_OperationFailure e then
               Some (if contains "already exists with different options" (str e)
                     then drop_index "created_day_ttl";;
                          create_index (days * 24 * 3600) "created_day_ttl"
                     else mret tt)
             else None)
  | None => mret tt
  end.

(** The [ttl] argument is accepted by the source and never read; it is
    left out. *)
Definition _set_bytes (id : string) (data : bytes) : M unit :=
  '(data, content_encoding) ←
    match compression self with
    | Some name =>
        if decide (name = "") then mret (data, "")
        else
          match compression_strategies !! name with
          | Some codec =>
              let compressed_data := encode codec data in
              if decide (length compressed_data ≤ length data)
              then mret (compressed_data, name)
              else mret (data, "")
          | None => raise (KeyError name)
          end
    | None => mret (data, "")
    end;
  created_dt ← utcnow_midnight;
  let doc := {| _id := id; data := data; content_encoding := content_encoding;
                created_day := created_dt |} in
  try_except (insert_one doc)
    (λ e, if isinstance_DuplicateKeyError e then Some (update_one id doc) else None).

Definition __get_key_for_id (id : string) : string :=
  match bucket_path self with
  | None => id
  | Some path => path +:+ "/" +:+ id
  end.

Definition __read_from_bucket (id : string) : M (option bytes) :=
  try_except
    (obj ← get_object (__get_key_for_id id) (bucket_name self);
     let data := Body obj in
     let codec := ContentEncoding obj ≫= (compression_strategies !!.) in
     value ← decode_if codec data;
     try_except
       (delete_object (__get_key_for_id id) (bucket_name self);;
        _set_bytes id value)
       (λ e, if isinstance_NoSuchKey e then Some (mret tt) else None);;
     mret (Some value))
    (λ e, if isinstance_NoSuchKey e then Some (mret None) else None).

Definition _get_bytes (id : string) : M (option bytes) :=
  doc ← find_one id;
  match doc with
  | Some doc =>
      let codec := compression_strategies !! content_encoding doc in
      value ← decode_if codec (data doc);
      mret (Some value)
  | None =>
      if read_from_s3 self then __read_from_bucket id
      else mret None
  end.

(** [for x in xs: result = body(result, x)] *)
Fixpoint for_each {A R} (xs : list A) (body : R → A → M R) (result : R) : M R :=
  match xs with
  | [] => mret result
  | x :: rest => result ← body result x; for_each rest body result
  end.

Definition _get_bytes_multi (ids : list string) : M (gmap string (option bytes)) :=
  docs ← find ids;
  let result : gmap string (option bytes) := ∅ in
  result ← for_each docs (λ result doc,
    let codec := compression_strategies !! content_encoding doc in
    v ← decode_if codec (data doc);
    mret (<[_id doc := Some v]> result)) result;
  result ←
    (if read_from_s3 self then
       let missing_ids := filter (λ id_, result !! id_ = None) ids in
       for_each missing_ids (λ result id_,
         v ← __read_from_bucket id_;
         mret (<[id_ := v]> result)) result
     else mret result);
  result ← for_each ids (λ result id_,
    match result !! id_ with
    | None => mret (<[id_ := None]> result)
    | Some _ => mret result
    end) result;
  mret result.

Definition cleanup (cutoff_timestamp : Z) : M unit :=
  mret tt.

End Engine.

(** [delete] and [delete_multi] read nothing of [self] but the collection;
    they sit in a module because [delete] also names the map operation. *)
Module Storage.

Definition delete (id : string) : M unit :=
  delete_one id.

Definition delete_multi (id_list : list string) : M unit :=
  delete_many id_list.

End Storage.

(** ** Observations used by the statements *)

(** The value of [codec.decode(data) if codec else data], when it has one. *)
Definition decoded (codec : option Codec) (data : bytes) : option bytes :=
  match codec with
  | Some c => decode c data
  | None => Some data
  end.

(** The codec a [content_encoding] tag of the collection selects. *)
Definition codec_of_tag (ZstdCodec : Codec) (tag : string) : option Codec :=
  compression_strategies ZstdCodec !! tag.

(** The codec the [ContentEncoding] metadata of an object selects. *)
Definition codec_of_metadata (ZstdCodec : Codec) (tag : option string) : option Codec :=
  tag ≫= (compression_strategies ZstdCodec !!.).

(** The logical value of an archival object. *)
Definition object_value (ZstdCodec : Codec) (obj : S3Object) : option bytes :=
  decoded (codec_of_metadata ZstdCodec (ContentEncoding obj)) (Body obj).

(** The logical value of a record of the collection. *)
Definition entry_value (ZstdCodec : Codec) (e : Entry) : option bytes :=
  decoded (codec_of_tag ZstdCodec (e_content_encoding e)) (e_data e).

(** [compression] is unset, empty, or names a registered codec: the
    configurations under which [_set_bytes] does not raise [KeyError]. *)
Definition compression_valid (ZstdCodec : Codec) (self : MongoNodeStorage) : bool :=
  match compression self with
  | Some name =>
      bool_decide (name = "") ||
      bool_decide (is_Some (compression_strategies ZstdCodec !! name))
  | None => true
  end.

(** Compression is configured: [self.compression] is truthy and names
    [codec] in the registry. *)
Definition compression_configured (ZstdCodec : Codec) (self : MongoNodeStorage)
    (name : string) (codec : Codec) : Prop :=
  compression self = Some name ∧ name ≠ "" ∧
  compression_strategies ZstdCodec !! name = Some codec.

(** The bytes and the tag [_set_bytes] puts in the record for [payload]. *)
Definition stored_form (ZstdCodec : Codec) (self : MongoNodeStorage)
    (payload : bytes) : bytes * string :=
  match compression self with
  | Some name =>
      match compression_strategies ZstdCodec !! name with
      | Some codec =>
          if decide (name ≠ "" ∧ length (encode codec payload) ≤ length payload)
          then (encode codec payload, name)
          else (payload, "")
      | None => (payload, "")
      end
  | None => (payload, "")
  end.

Definition stored_entry (ZstdCodec : Codec) (self : MongoNodeStorage)
    (now : Z) (payload : bytes) : Entry :=
  {| e_data := (stored_form ZstdCodec self payload).1;
     e_content_encoding := (stored_form ZstdCodec self payload).2;
     e_created_day := utc_midnight now |}.

(** The key of the bucket map under which [id] is archived. *)
Definition archive_key (self : MongoNodeStorage) (id : string) : string * string :=
  (bucket_name self, __get_key_for_id self id).

(** Where an entry lives (the states of the spec's per-entry machine). *)
Inductive TierState := ArchivalOnly | PrimaryOnly | TransientBoth | Absent.

Definition tier_state (self : MongoNodeStorage) (id : string)
    (c : gmap string Entry) (b : gmap (string * string) S3Object) : TierState :=
  match c !! id, b !! archive_key self id with
  | Some _, Some _ => TransientBoth
  | Some _, None => PrimaryOnly
  | None, Some _ => ArchivalOnly
  | None, None => Absent
  end.

Definition event_state (self : MongoNodeStorage) (id : string) (ev : Event) : TierState :=
  tier_state self id (ev_collection ev) (ev_bucket ev).

(** ** A codec and a world for the closed examples *)

(** The number of leading zero bytes of [l], up to [limit]. *)
Fixpoint zero_run (limit : nat) (l : bytes) : nat :=
  match limit, l with
  | S limit', b :: rest => if Byte.eqb b Byte.x00 then S (zero_run limit' rest) else 0
  | _, _ => 0
  end.

(** A codec that replaces the leading run of zero bytes (at most 255 of
    them) by one byte holding its length. *)
Definition ZeroRunCodec : Codec :=
  {| encode := λ l,
       let k := zero_run 255 l in
       default Byte.x00 (Byte.of_nat k) :: drop k l;
     decode := λ l,
       match l with
       | [] => None
       | n :: rest => Some (replicate (Byte.to_nat n) Byte.x00 ++ rest)
       end |}.

Definition example_storage : MongoNodeStorage :=
  {| default_ttl_days := Some 30%Z; compression := Some "zstd";
     read_from_s3 := true; bucket_name := "nodestore"; bucket_path := Some "nodes" |}.

(** The archival tier holds ["e2" -> "cold"], the primary tier is empty. *)
Definition cold_world : World :=
  {| collection := ∅; indexes := ∅;
     bucket := {[ ("nodestore", "nodes/e2") :=
                    {| Body := String.list_byte_of_string "cold";
                       ContentEncoding := None |} ]};
     utcnow := 1700000000%Z; faults := []; trace := [] |}.

Definition with_faults (f : list (option exn)) (w : World) : World := set_faults f w.

(** The events a write of [entry] under [id] appends to the trace when no
    call fails: the insert, and the update when the insert meets a record. *)
Definition write_events (id : string) (entry : Entry)
    (c : gmap string Entry) (b : gmap (string * string) S3Object) : list Event :=
  match c !! id with
  | None =>
      [ {| ev_call := insert_one_call id; ev_collection := <[id := entry]> c;
           ev_bucket := b |} ]
  | Some _ =>
      [ {| ev_call := insert_one_call id; ev_collection := c; ev_bucket := b |};
        {| ev_call := update_one_call id; ev_collection := <[id := entry]> c;
           ev_bucket := b |} ]
  end.

(** [decode] is the exact left inverse of [encode]. *)
Definition lossless (c : Codec) : Prop := ∀ x, decode c (encode c x) = Some x.

(** The events a migration of [entry] appends after the [get_object]. *)
Definition migration_events (self : MongoNodeStorage) (id : string) (entry : Entry)
    (c : gmap string Entry) (b : gmap (string * string) S3Object) : list Event :=
  [ {| ev_call := get_object_call (bucket_name self) (__get_key_for_id self id);
       ev_collection := c; ev_bucket := b |};
    {| ev_call := delete_object_call (bucket_name self) (__get_key_for_id self id);
       ev_collection := c; ev_bucket := delete (archive_key self id) b |} ]
  ++ write_events id entry c (delete (archive_key self id) b).

(** The number of times [id] occurs in [ids]. *)
Definition occurrences (id : string) (ids : list string) : nat :=
  length (filter (λ x, x = id) ids).

(** Every record of the collection decodes under its tag. *)
Definition collection_decodable (ZstdCodec : Codec) (c : gmap string Entry) : Prop :=
  map_Forall (λ _ e, is_Some (entry_value ZstdCodec e)) c.

(** Every object of the bucket decodes under its metadata. *)
Definition bucket_decodable (ZstdCodec : Codec)
    (b : gmap (string * string) S3Object) : Prop :=
  map_Forall (λ _ obj, is_Some (object_value ZstdCodec obj)) b.

(** The archival tier can be read: the configuration does not make the
    migrating write raise, and every object decodes. *)
Definition archive_ready (ZstdCodec : Codec) (self : MongoNodeStorage) (w : World) : Prop :=
  read_from_s3 self = true →
  compression_valid ZstdCodec self = true ∧ bucket_decodable ZstdCodec (bucket w).

(** [m] never adds an object to the bucket, whatever the services do. *)
Definition archive_shrinks {A} (m : M A) : Prop :=
  ∀ w res w', m w = (res, w') → bucket w' ⊆ bucket w.

(** ** Frames: what an operation leaves alone *)

(** A relation between the world before and the world after an operation
    that looks at the two tiers and the indexes only. *)
Class Frame (R : World → World → Prop) : Prop := {
  frame_refl : ∀ w, R w w;
  frame_trans : ∀ w1 w2 w3, R w1 w2 → R w2 w3 → R w1 w3;
  frame_faults : ∀ f w, R w (set_faults f w);
  frame_record : ∀ c w, R w (record_call c w);
}.

(** [m] takes every world to one related to it by [R], whatever the
    services do and whether [m] returns or raises. *)
Definition preserves {A} (R : World → World → Prop) (m : M A) : Prop :=
  ∀ w res w', m w = (res, w') → R w w'.

(** Nothing changes but, at most, the record of [id]. *)
Definition writes_only (id : string) (w w' : World) : Prop :=
  (∀ id', id' ≠ id → collection w' !! id' = collection w !! id') ∧
  bucket w' = bucket w ∧ indexes w' = indexes w.

(** Both tiers and the indexes are as they were. *)
Definition same_tiers (w w' : World) : Prop :=
  collection w' = collection w ∧ bucket w' = bucket w ∧ indexes w' = indexes w.

(** The bucket is as it was. *)
Definition same_bucket (w w' : World) : Prop := bucket w' = bucket w.

(** No object has been added to the bucket. *)
Definition bucket_shrinks (w w' : World) : Prop := bucket w' ⊆ bucket w.

(** ** More worlds and configurations for the closed examples *)

(** The primary tier holds ["e1"], encoded by [ZeroRunCodec]; the archival
    tier holds an older copy of ["e1"] and ["e2"]; a TTL index of one day
    exists. *)
Definition warm_world : World :=
  {| collection := {[ "e1" := {| e_data := [Byte.x02; Byte.x61];
                                 e_content_encoding := "zstd";
                                 e_created_day := 1699920000%Z |} ]};
     indexes := {[ "created_day_ttl" := 86400%Z ]};
     bucket := {[ ("nodestore", "nodes/e1") :=
                    {| Body := String.list_byte_of_string "stale";
                       ContentEncoding := None |};
                  ("nodestore", "nodes/e2") :=
                    {| Body := String.list_byte_of_string "cold";
                       ContentEncoding := None |} ]};
     utcnow := 1700000000%Z; faults := []; trace := [] |}.

(** No archival tier, no compression, no TTL. *)
Definition primary_only_storage : MongoNodeStorage :=
  {| default_ttl_days := None; compression := None;
     read_from_s3 := false; bucket_name := ""; bucket_path := None |}.

(** A compression name the registry does not hold. *)
Definition gzip_storage : MongoNodeStorage :=
  {| default_ttl_days := Some 30%Z; compression := Some "gzip";
     read_from_s3 := true; bucket_name := "nodestore"; bucket_path := Some "nodes" |}.

(** * Properties *)

(** ** The monad and the clients on a world without failures *)

Lemma bind_run {A B} (m : M A) (k : A → M B) w :
  (m ≫= k) w = match m w with
               | (Ok a, w') => k a w'
               | (Raise e, w') => (Raise e, w')
               end.
Proof. reflexivity. Qed.

Lemma client_call_quiet {A} c (op : M A) w :
  faults w = [] →
  client_call c op w = (let '(r, w') := op w in (r, record_call c w')).
Proof. unfold client_call. intros ->. reflexivity. Qed.

Lemma client_call_fault {A} c (op : M A) w e rest :
  faults w = Some e :: rest →
  client_call c op w = (Raise e, record_call c (set_faults rest w)).
Proof. unfold client_call. intros ->. reflexivity. Qed.

Lemma client_call_pass {A} c (op : M A) w rest :
  faults w = None :: rest →
  client_call c op w =
    (let '(r, w') := op (set_faults rest w) in (r, record_call c w')).
Proof. unfold client_call. intros ->. reflexivity. Qed.

Lemma decode_if_run codec data w :
  decode_if codec data w =
    (match decoded codec data with Some v => Ok v | None => Raise CodecError end, w).
Proof.
  unfold decode_if, decoded. destruct codec as [c|]; [|reflexivity].
  destruct (decode c data); reflexivity.
Qed.

Lemma stored_form_valid ZstdCodec self payload w :
  compression_valid ZstdCodec self = true →
  (match compression self with
   | Some name =>
       if decide (name = "") then mret (payload, "")
       else
         match compression_strategies ZstdCodec !! name with
         | Some codec =>
             let compressed_data := encode codec payload in
             if decide (length compressed_data ≤ length payload)
             then mret (compressed_data, name)
             else mret (payload, "")
         | None => raise (KeyError name)
         end
   | None => mret (payload, "")
   end) w = (Ok (stored_form ZstdCodec self payload), w).
Proof.
  unfold compression_valid, stored_form. intros Hvalid.
  destruct (compression self) as [name|]; [|reflexivity].
  destruct (decide (name = "")) as [->|Hname].
  { reflexivity. }
  rewrite bool_decide_eq_false_2 in Hvalid by done. simpl in Hvalid.
  apply bool_decide_eq_true_1 in Hvalid. destruct Hvalid as [codec Hcodec].
  rewrite Hcodec. simpl.
  destruct (decide (length (encode codec payload) ≤ length payload)).
  - rewrite decide_True by done. reflexivity.
  - rewrite decide_False by tauto. reflexivity.
Qed.

Lemma _set_bytes_quiet ZstdCodec self id payload w :
  faults w = [] →
  compression_valid ZstdCodec self = true →
  ∃ w', _set_bytes ZstdCodec self id payload w = (Ok tt, w') ∧
    collection w' = <[id := stored_entry ZstdCodec self (utcnow w) payload]> (collection w) ∧
    bucket w' = bucket w ∧ indexes w' = indexes w ∧ utcnow w' = utcnow w ∧
    faults w' = [] ∧
    trace w' = trace w ++ write_events id (stored_entry ZstdCodec self (utcnow w) payload)
                            (collection w) (bucket w).
Proof.
  intros Hquiet Hvalid. unfold _set_bytes.
  rewrite bind_run, stored_form_valid by done.
  destruct (stored_form ZstdCodec self payload) as [stored tag] eqn:Hform.
  rewrite bind_run. unfold utcnow_midnight at 1.
  unfold try_except, insert_one, write_events, stored_entry. rewrite Hform.
  rewrite client_call_quiet by done. simpl.
  destruct (collection w !! id) as [old|] eqn:Hold; simpl.
  - unfold update_one. rewrite client_call_quiet by done. simpl.
    rewrite Hold. rewrite decide_True by done. simpl.
    eexists. split; [reflexivity|]. simpl. rewrite <- app_assoc. done.
  - eexists. split; [reflexivity|]. done.
Qed.

Lemma compression_strategies_Some ZstdCodec name codec :
  compression_strategies ZstdCodec !! name = Some codec ↔
  name = "zstd" ∧ codec = ZstdCodec.
Proof.
  unfold compression_strategies. rewrite lookup_singleton_Some. intuition congruence.
Qed.

Lemma stored_form_cases ZstdCodec self payload :
  stored_form ZstdCodec self payload = (payload, "") ∨
  stored_form ZstdCodec self payload = (encode ZstdCodec payload, "zstd").
Proof.
  unfold stored_form. destruct (compression self) as [name|]; [|by left].
  destruct (compression_strategies ZstdCodec !! name) as [codec|] eqn:Hcodec; [|by left].
  apply compression_strategies_Some in Hcodec as [-> ->].
  case_decide; [by right|by left].
Qed.

Lemma entry_value_stored ZstdCodec self now payload :
  lossless ZstdCodec →
  entry_value ZstdCodec (stored_entry ZstdCodec self now payload) = Some payload.
Proof.
  intros Hlossless. unfold entry_value, stored_entry, codec_of_tag. simpl.
  destruct (stored_form_cases ZstdCodec self payload) as [-> | ->]; simpl.
  - reflexivity.
  - apply Hlossless.
Qed.

Lemma __read_from_bucket_miss_quiet ZstdCodec self id w :
  faults w = [] →
  bucket w !! archive_key self id = None →
  __read_from_bucket ZstdCodec self id w =
    (Ok None,
     record_call (get_object_call (bucket_name self) (__get_key_for_id self id)) w).
Proof.
  intros Hquiet Hmiss. unfold archive_key in Hmiss.
  unfold __read_from_bucket, try_except. rewrite bind_run.
  unfold get_object. rewrite client_call_quiet by done. rewrite Hmiss. reflexivity.
Qed.

Lemma __read_from_bucket_corrupt_quiet ZstdCodec self id obj w :
  faults w = [] →
  bucket w !! archive_key self id = Some obj →
  object_value ZstdCodec obj = None →
  __read_from_bucket ZstdCodec self id w =
    (Raise CodecError,
     record_call (get_object_call (bucket_name self) (__get_key_for_id self id)) w).
Proof.
  intros Hquiet Hhit Hvalue. unfold archive_key in Hhit.
  unfold __read_from_bucket, try_except at 1. rewrite bind_run.
  unfold get_object. rewrite client_call_quiet by done. rewrite Hhit.
  rewrite bind_run, decode_if_run.
  unfold object_value, codec_of_metadata in Hvalue. rewrite Hvalue. reflexivity.
Qed.

Lemma __read_from_bucket_hit_quiet ZstdCodec self id obj value w :
  faults w = [] →
  compression_valid ZstdCodec self = true →
  bucket w !! archive_key self id = Some obj →
  object_value ZstdCodec obj = Some value →
  ∃ w', __read_from_bucket ZstdCodec self id w = (Ok (Some value), w') ∧
    collection w' = <[id := stored_entry ZstdCodec self (utcnow w) value]> (collection w) ∧
    bucket w' = delete (archive_key self id) (bucket w) ∧
    indexes w' = indexes w ∧ utcnow w' = utcnow w ∧ faults w' = [] ∧
    trace w' = trace w ++ migration_events self id
                 (stored_entry ZstdCodec self (utcnow w) value) (collection w) (bucket w).
Proof.
  intros Hquiet Hvalid Hhit Hvalue. unfold archive_key in Hhit.
  unfold __read_from_bucket, try_except at 1. rewrite bind_run.
  unfold get_object. rewrite client_call_quiet by done. rewrite Hhit.
  rewrite bind_run, decode_if_run.
  unfold object_value, codec_of_metadata in Hvalue. rewrite Hvalue.
  rewrite bind_run. unfold try_except at 1. rewrite bind_run.
  unfold delete_object. rewrite client_call_quiet by done. simpl. rewrite Hhit.
  match goal with |- context [_set_bytes _ _ _ _ ?w1] =>
    destruct (_set_bytes_quiet ZstdCodec self id value w1) as (w' & -> & Hc & Hb & Hi & Hn & Hf & Ht);
    [done|done|] end.
  simpl in *. exists w'. split; [reflexivity|].
  rewrite Hc, Hb, Hi, Hn, Hf, Ht. unfold migration_events, archive_key.
  rewrite <- !app_assoc. done.
Qed.

Lemma _get_bytes_primary_quiet ZstdCodec self id entry w :
  faults w = [] →
  collection w !! id = Some entry →
  _get_bytes ZstdCodec self id w =
    (match entry_value ZstdCodec entry with
     | Some value => Ok (Some value)
     | None => Raise CodecError
     end, record_call (find_one_call id) w).
Proof.
  intros Hquiet Hhit. unfold _get_bytes. rewrite bind_run.
  unfold find_one. rewrite client_call_quiet by done. rewrite Hhit. simpl.
  rewrite bind_run, decode_if_run. unfold entry_value, codec_of_tag.
  destruct (decoded _ _); reflexivity.
Qed.

Lemma _get_bytes_fallback_quiet ZstdCodec self id w :
  faults w = [] →
  collection w !! id = None →
  _get_bytes ZstdCodec self id w =
    if read_from_s3 self
    then __read_from_bucket ZstdCodec self id (record_call (find_one_call id) w)
    else (Ok None, record_call (find_one_call id) w).
Proof.
  intros Hquiet Hmiss. unfold _get_bytes. rewrite bind_run.
  unfold find_one. rewrite client_call_quiet by done. rewrite Hmiss. simpl.
  destruct (read_from_s3 self); reflexivity.
Qed.

Lemma compression_configured_valid ZstdCodec self name codec :
  compression_configured ZstdCodec self name codec →
  compression_valid ZstdCodec self = true.
Proof.
  intros (Hname & _ & Hcodec). unfold compression_valid. rewrite Hname.
  apply orb_true_iff. right. apply bool_decide_eq_true_2. by exists codec.
Qed.

(** ** The example codec *)

Lemma zero_run_le limit l : zero_run limit l ≤ limit.
Proof.
  revert l. induction limit as [|limit IH]; intros [|b rest]; simpl; try lia.
  destruct (Byte.eqb b Byte.x00); [|lia]. specialize (IH rest). lia.
Qed.

Lemma zero_run_split limit l :
  replicate (zero_run limit l) Byte.x00 ++ drop (zero_run limit l) l = l.
Proof.
  revert l. induction limit as [|limit IH]; intros [|b rest]; simpl; try done.
  destruct (Byte.eqb b Byte.x00) eqn:Hb; simpl; [|done].
  apply Byte.byte_dec_bl in Hb as ->. by rewrite IH.
Qed.

Lemma ZeroRunCodec_lossless : lossless ZeroRunCodec.
Proof.
  intros l. cbv [ZeroRunCodec encode decode].
  pose proof (zero_run_le 255 l) as Hle.
  destruct (Byte.of_nat (zero_run 255 l)) as [n|] eqn:Hn.
  - apply Byte.to_of_nat in Hn. change (default Byte.x00 (Some n)) with n.
    rewrite Hn. by rewrite zero_run_split.
  - apply Byte.of_nat_None_iff in Hn. lia.
Qed.

(** ** Writes: the compression guard *)

(** C5. A write with compression configured stores a non-empty
    [content_encoding] exactly when the encoded form is no longer than the
    payload, and then stores the encoded bytes under the codec's name;
    otherwise it stores the raw bytes with an empty tag. *)
Theorem compression_guard ZstdCodec self name codec id payload w :
  compression_configured ZstdCodec self name codec →
  faults w = [] →
  ∃ w' entry,
    _set_bytes ZstdCodec self id payload w = (Ok tt, w') ∧
    collection w' !! id = Some entry ∧
    (e_content_encoding entry ≠ "" ↔ length (encode codec payload) ≤ length payload) ∧
    (length (encode codec payload) ≤ length payload →
       e_data entry = encode codec payload ∧ e_content_encoding entry = name) ∧
    (¬ length (encode codec payload) ≤ length payload →
       e_data entry = payload ∧ e_content_encoding entry = "").
Proof.
  intros Hconfigured Hquiet.
  pose proof Hconfigured as (Hname & Hnonempty & Hcodec).
  destruct (_set_bytes_quiet ZstdCodec self id payload w) as (w' & Hrun & Hc & _).
  { done. }
  { by eapply compression_configured_valid. }
  exists w', (stored_entry ZstdCodec self (utcnow w) payload).
  split; [done|]. split; [by rewrite Hc, lookup_insert_eq|].
  unfold stored_entry, stored_form. rewrite Hname, Hcodec. simpl.
  destruct (decide (length (encode codec payload) ≤ length payload)) as [Hle|Hgt].
  - rewrite decide_True by done. simpl. tauto.
  - rewrite decide_False by tauto. simpl. tauto.
Qed.

Lemma compression_guard_witness :
  ∃ w' entry,
    _set_bytes ZeroRunCodec example_storage "e1" [Byte.x00; Byte.x00; Byte.x00; Byte.x61]
      cold_world = (Ok tt, w') ∧
    collection w' !! "e1" = Some entry ∧
    (e_content_encoding entry ≠ "" ↔
       length (encode ZeroRunCodec [Byte.x00; Byte.x00; Byte.x00; Byte.x61]) ≤ 4) ∧
    (length (encode ZeroRunCodec [Byte.x00; Byte.x00; Byte.x00; Byte.x61]) ≤ 4 →
       e_data entry = encode ZeroRunCodec [Byte.x00; Byte.x00; Byte.x00; Byte.x61] ∧
       e_content_encoding entry = "zstd") ∧
    (¬ length (encode ZeroRunCodec [Byte.x00; Byte.x00; Byte.x00; Byte.x61]) ≤ 4 →
       e_data entry = [Byte.x00; Byte.x00; Byte.x00; Byte.x61] ∧
       e_content_encoding entry = "").
Proof.
  apply (compression_guard ZeroRunCodec example_storage "zstd" ZeroRunCodec "e1"
           [Byte.x00; Byte.x00; Byte.x00; Byte.x61] cold_world).
  - split; [reflexivity | split; [discriminate | reflexivity]].
  - reflexivity.
Defined.

(** C4, as stated, fails: a payload whose encoded form has the same
    length is stored encoded, under a non-empty tag. *)
Lemma strict_guard_counterexample :
  ∃ w' entry,
    _set_bytes ZeroRunCodec example_storage "e1" [Byte.x00; Byte.x61] cold_world
      = (Ok tt, w') ∧
    collection w' !! "e1" = Some entry ∧
    length (encode ZeroRunCodec [Byte.x00; Byte.x61]) = length [Byte.x00; Byte.x61] ∧
    ¬ length (encode ZeroRunCodec [Byte.x00; Byte.x61]) < length [Byte.x00; Byte.x61] ∧
    e_content_encoding entry = "zstd" ∧
    e_content_encoding entry ≠ "" ∧
    e_data entry = [Byte.x01; Byte.x61].
Proof.
  eexists _, _. split; [vm_compute; reflexivity|].
  split; [vm_compute; reflexivity|]. simpl.
  split; [reflexivity|]. split; [lia|]. split; [reflexivity|].
  split; [discriminate | reflexivity].
Qed.

(** C4, amended. A write with compression configured stores a non-empty
    [content_encoding] only when the encoded form is no longer than the
    payload; when the encoded form is strictly longer, the raw bytes are
    stored with an empty tag; the stored bytes are never longer than the
    payload. *)
Theorem compression_never_grows ZstdCodec self name codec id payload w :
  compression_configured ZstdCodec self name codec →
  faults w = [] →
  ∃ w' entry,
    _set_bytes ZstdCodec self id payload w = (Ok tt, w') ∧
    collection w' !! id = Some entry ∧
    (e_content_encoding entry ≠ "" → length (encode codec payload) ≤ length payload) ∧
    (length payload < length (encode codec payload) →
       e_data entry = payload ∧ e_content_encoding entry = "") ∧
    length (e_data entry) ≤ length payload.
Proof.
  intros Hconfigured Hquiet.
  pose proof Hconfigured as (Hname & Hnonempty & Hcodec).
  destruct (_set_bytes_quiet ZstdCodec self id payload w) as (w' & Hrun & Hc & _).
  { done. }
  { by eapply compression_configured_valid. }
  exists w', (stored_entry ZstdCodec self (utcnow w) payload).
  split; [done|]. split; [by rewrite Hc, lookup_insert_eq|].
  unfold stored_entry, stored_form. rewrite Hname, Hcodec. simpl.
  destruct (decide (length (encode codec payload) ≤ length payload)) as [Hle|Hgt].
  - rewrite decide_True by done. simpl. split; [done|]. split; [lia|done].
  - rewrite decide_False by tauto. simpl. split; [done|]. split; [done|lia].
Qed.

Lemma compression_never_grows_witness :
  ∃ w' entry,
    _set_bytes ZeroRunCodec example_storage "e1" [Byte.x61] cold_world = (Ok tt, w') ∧
    collection w' !! "e1" = Some entry ∧
    (e_content_encoding entry ≠ "" → length (encode ZeroRunCodec [Byte.x61]) ≤ 1) ∧
    (1 < length (encode ZeroRunCodec [Byte.x61]) →
       e_data entry = [Byte.x61] ∧ e_content_encoding entry = "") ∧
    length (e_data entry) ≤ 1.
Proof.
  apply (compression_never_grows ZeroRunCodec example_storage "zstd" ZeroRunCodec "e1"
           [Byte.x61] cold_world).
  - split; [reflexivity | split; [discriminate | reflexivity]].
  - reflexivity.
Defined.

(** ** Write, then read *)

(** C6. With a lossless codec, [set(id, v)] followed by [get(id)] returns
    [v], whether the value was stored encoded or raw. *)
Theorem set_then_get ZstdCodec self id v w :
  lossless ZstdCodec →
  compression_valid ZstdCodec self = true →
  faults w = [] →
  ∃ w1 w2,
    _set_bytes ZstdCodec self id v w = (Ok tt, w1) ∧
    _get_bytes ZstdCodec self id w1 = (Ok (Some v), w2).
Proof.
  intros Hlossless Hvalid Hquiet.
  destruct (_set_bytes_quiet ZstdCodec self id v w)
    as (w1 & Hset & Hc & _ & _ & _ & Hquiet1 & _); [done..|].
  exists w1, (record_call (find_one_call id) w1). split; [done|].
  rewrite (_get_bytes_primary_quiet _ _ _ (stored_entry ZstdCodec self (utcnow w) v))
    by (by rewrite ?Hc, ?lookup_insert_eq).
  by rewrite entry_value_stored.
Qed.

Lemma set_then_get_witness :
  ∃ w1 w2,
    _set_bytes ZeroRunCodec example_storage "e1" [Byte.x00; Byte.x00; Byte.x61] cold_world
      = (Ok tt, w1) ∧
    _get_bytes ZeroRunCodec example_storage "e1" w1
      = (Ok (Some [Byte.x00; Byte.x00; Byte.x61]), w2).
Proof.
  apply (set_then_get ZeroRunCodec example_storage "e1"
           [Byte.x00; Byte.x00; Byte.x61] cold_world).
  - exact ZeroRunCodec_lossless.
  - reflexivity.
  - reflexivity.
Defined.

(** ** Cleanup *)

(** C8. [cleanup] returns without an error and leaves the world, hence
    both tiers, as it found them, whatever the cutoff. *)
Theorem cleanup_noop cutoff_timestamp w :
  cleanup cutoff_timestamp w = (Ok tt, w) ∧
  collection (cleanup cutoff_timestamp w).2 = collection w ∧
  bucket (cleanup cutoff_timestamp w).2 = bucket w.
Proof. done. Qed.

(** ** Migration on a single-id read *)

Lemma utc_midnight_spec now :
  (utc_midnight now `mod` 86400 = 0 ∧
   utc_midnight now ≤ now < utc_midnight now + 86400)%Z.
Proof.
  unfold utc_midnight. pose proof (Z.mod_pos_bound now 86400 eq_refl).
  split; [|lia].
  rewrite Zminus_mod_idemp_r, Z.sub_diag. reflexivity.
Qed.

Lemma _get_bytes_migrates ZstdCodec self id obj value w :
  read_from_s3 self = true →
  compression_valid ZstdCodec self = true →
  faults w = [] →
  collection w !! id = None →
  bucket w !! archive_key self id = Some obj →
  object_value ZstdCodec obj = Some value →
  ∃ w', _get_bytes ZstdCodec self id w = (Ok (Some value), w') ∧
    collection w' = <[id := stored_entry ZstdCodec self (utcnow w) value]> (collection w) ∧
    bucket w' = delete (archive_key self id) (bucket w) ∧
    faults w' = [] ∧
    trace w' = trace w ++
      {| ev_call := find_one_call id; ev_collection := collection w;
         ev_bucket := bucket w |} ::
      migration_events self id (stored_entry ZstdCodec self (utcnow w) value)
        (collection w) (bucket w).
Proof.
  intros Hs3 Hvalid Hquiet Hmiss Hhit Hvalue.
  rewrite _get_bytes_fallback_quiet, Hs3 by done.
  destruct (__read_from_bucket_hit_quiet ZstdCodec self id obj value
              (record_call (find_one_call id) w))
    as (w' & Hrun & Hc & Hb & _ & _ & Hf & Ht); [done..|].
  exists w'. split; [done|]. simpl in *.
  rewrite Hc, Hb, Hf, Ht, <- app_assoc. done.
Qed.

(** C10. A migration-on-read of an archival-only id creates the primary
    record through the write path: [created_day] is the UTC midnight of
    the day of the read, computed from the clock alone, and the bytes and
    tag are the ones the configured compression gives the decoded value,
    exactly as a [set] of that value at that moment would store them. *)
Theorem migration_restamps ZstdCodec self id obj value w :
  read_from_s3 self = true →
  compression_valid ZstdCodec self = true →
  faults w = [] →
  collection w !! id = None →
  bucket w !! archive_key self id = Some obj →
  object_value ZstdCodec obj = Some value →
  ∃ w' entry,
    _get_bytes ZstdCodec self id w = (Ok (Some value), w') ∧
    collection w' !! id = Some entry ∧
    e_created_day entry = utc_midnight (utcnow w) ∧
    (e_created_day entry `mod` 86400 = 0)%Z ∧
    (e_created_day entry ≤ utcnow w < e_created_day entry + 86400)%Z ∧
    (e_data entry, e_content_encoding entry) = stored_form ZstdCodec self value ∧
    collection w' = collection (_set_bytes ZstdCodec self id value w).2.
Proof.
  intros Hs3 Hvalid Hquiet Hmiss Hhit Hvalue.
  destruct (_get_bytes_migrates ZstdCodec self id obj value w)
    as (w' & Hrun & Hc & _); [done..|].
  destruct (_set_bytes_quiet ZstdCodec self id value w)
    as (w1 & Hset & Hc1 & _); [done..|].
  exists w', (stored_entry ZstdCodec self (utcnow w) value).
  split; [done|]. split; [by rewrite Hc, lookup_insert_eq|].
  split; [done|]. pose proof (utc_midnight_spec (utcnow w)) as [Hmod Hday].
  split; [done|]. split; [done|]. split.
  - simpl. by destruct (stored_form ZstdCodec self value).
  - rewrite Hset. simpl. by rewrite Hc, Hc1.
Qed.

Lemma migration_restamps_witness :
  ∃ w' entry,
    _get_bytes ZeroRunCodec example_storage "e2" cold_world
      = (Ok (Some (String.list_byte_of_string "cold")), w') ∧
    collection w' !! "e2" = Some entry ∧
    e_created_day entry = utc_midnight 1700000000 ∧
    (e_created_day entry `mod` 86400 = 0)%Z ∧
    (e_created_day entry ≤ 1700000000 < e_created_day entry + 86400)%Z ∧
    (e_data entry, e_content_encoding entry)
      = stored_form ZeroRunCodec example_storage (String.list_byte_of_string "cold") ∧
    collection w' = collection (_set_bytes ZeroRunCodec example_storage "e2"
                                  (String.list_byte_of_string "cold") cold_world).2.
Proof.
  apply (migration_restamps ZeroRunCodec example_storage "e2"
           {| Body := String.list_byte_of_string "cold"; ContentEncoding := None |}
           (String.list_byte_of_string "cold") cold_world); reflexivity.
Defined.

(** C2, as stated, fails: on the archival-only id ["e2"] the archival
    delete is called before the primary insert, and between the two the
    value is in neither tier. *)
Lemma upsert_before_delete_counterexample :
  (λ ev, (ev_call ev, event_state example_storage "e2" ev)) <$>
    trace (_get_bytes ZeroRunCodec example_storage "e2" cold_world).2
  = [ (find_one_call "e2", ArchivalOnly);
      (get_object_call "nodestore" "nodes/e2", ArchivalOnly);
      (delete_object_call "nodestore" "nodes/e2", Absent);
      (insert_one_call "e2", PrimaryOnly) ].
Proof. vm_compute. reflexivity. Qed.

(** C2, amended. During migration-on-read in the single-id get path the
    archival delete is attempted before the primary write; the calls are
    find_one, get_object, delete_object, insert_one, and the states an
    observer sees after them are ArchivalOnly, ArchivalOnly, Absent and
    PrimaryOnly: the transient state is the value in neither tier, never
    the value in both. *)
Theorem migration_deletes_before_upsert ZstdCodec self id obj value w :
  read_from_s3 self = true →
  compression_valid ZstdCodec self = true →
  faults w = [] →
  collection w !! id = None →
  bucket w !! archive_key self id = Some obj →
  object_value ZstdCodec obj = Some value →
  ∃ w' events,
    _get_bytes ZstdCodec self id w = (Ok (Some value), w') ∧
    trace w' = trace w ++ events ∧
    ev_call <$> events =
      [ find_one_call id;
        get_object_call (bucket_name self) (__get_key_for_id self id);
        delete_object_call (bucket_name self) (__get_key_for_id self id);
        insert_one_call id ] ∧
    event_state self id <$> events = [ArchivalOnly; ArchivalOnly; Absent; PrimaryOnly] ∧
    Forall (λ ev, event_state self id ev ≠ TransientBoth) events.
Proof.
  intros Hs3 Hvalid Hquiet Hmiss Hhit Hvalue.
  destruct (_get_bytes_migrates ZstdCodec self id obj value w)
    as (w' & Hrun & _ & _ & _ & Ht); [done..|].
  eexists w', _. split; [done|]. split; [exact Ht|].
  unfold migration_events, write_events. rewrite Hmiss. simpl.
  split; [done|].
  unfold event_state, tier_state. simpl.
  rewrite Hmiss, Hhit, lookup_delete_eq, lookup_insert_eq.
  split; [done|].
  repeat (apply Forall_cons; split); try apply Forall_nil; simpl;
    rewrite ?Hmiss, ?Hhit, ?lookup_delete_eq, ?lookup_insert_eq; done.
Qed.

Lemma migration_deletes_before_upsert_witness :
  ∃ w' events,
    _get_bytes ZeroRunCodec example_storage "e2" cold_world
      = (Ok (Some (String.list_byte_of_string "cold")), w') ∧
    trace w' = trace cold_world ++ events ∧
    ev_call <$> events =
      [ find_one_call "e2";
        get_object_call "nodestore" (__get_key_for_id example_storage "e2");
        delete_object_call "nodestore" (__get_key_for_id example_storage "e2");
        insert_one_call "e2" ] ∧
    event_state example_storage "e2" <$> events
      = [ArchivalOnly; ArchivalOnly; Absent; PrimaryOnly] ∧
    Forall (λ ev, event_state example_storage "e2" ev ≠ TransientBoth) events.
Proof.
  apply (migration_deletes_before_upsert ZeroRunCodec example_storage "e2"
           {| Body := String.list_byte_of_string "cold"; ContentEncoding := None |}
           (String.list_byte_of_string "cold") cold_world); reflexivity.
Defined.

(** C3, as stated, fails: when the archival delete fails with an error
    that is not [NoSuchKey], the read fails with that error. *)
Lemma delete_failure_counterexample :
  (_get_bytes ZeroRunCodec example_storage "e2"
     (with_faults [None; None; Some (ClientError "AccessDenied")] cold_world)).1
  = Raise (ClientError "AccessDenied").
Proof. vm_compute. reflexivity. Qed.

(** C3, amended. In the single-id get migration path, a [NoSuchKey] from
    the archival delete is swallowed and the read returns the decoded
    value; any other failure of the archival delete is raised to the
    caller of the read.  In both cases the read has written to neither
    tier. *)
Theorem archival_delete_failure ZstdCodec self id obj value e rest w :
  read_from_s3 self = true →
  collection w !! id = None →
  bucket w !! archive_key self id = Some obj →
  object_value ZstdCodec obj = Some value →
  faults w = None :: None :: Some e :: rest →
  ∃ w',
    _get_bytes ZstdCodec self id w
      = (if isinstance_NoSuchKey e then Ok (Some value) else Raise e, w') ∧
    collection w' = collection w ∧
    bucket w' = bucket w.
Proof.
  intros Hs3 Hmiss Hhit Hvalue Hfaults. unfold archive_key in Hhit.
  unfold _get_bytes. rewrite bind_run.
  unfold find_one. rewrite (client_call_pass _ _ _ _ Hfaults). simpl.
  rewrite Hmiss. simpl. rewrite Hs3.
  unfold __read_from_bucket, try_except at 1. rewrite bind_run.
  unfold get_object. erewrite client_call_pass by reflexivity. simpl.
  rewrite Hhit. rewrite bind_run, decode_if_run.
  unfold object_value, codec_of_metadata in Hvalue. rewrite Hvalue.
  rewrite bind_run. unfold try_except at 1. rewrite bind_run.
  unfold delete_object. erewrite client_call_fault by reflexivity.
  destruct e; simpl; eexists; (split; [reflexivity|]); done.
Qed.

Lemma archival_delete_failure_witness :
  ∃ w',
    _get_bytes ZeroRunCodec example_storage "e2"
      (with_faults [None; None; Some (ClientError "SlowDown")] cold_world)
      = (if isinstance_NoSuchKey (ClientError "SlowDown")
         then Ok (Some (String.list_byte_of_string "cold"))
         else Raise (ClientError "SlowDown"), w') ∧
    collection w' = collection (with_faults [None; None; Some (ClientError "SlowDown")] cold_world) ∧
    bucket w' = bucket (with_faults [None; None; Some (ClientError "SlowDown")] cold_world).
Proof.
  apply (archival_delete_failure ZeroRunCodec example_storage "e2"
           {| Body := String.list_byte_of_string "cold"; ContentEncoding := None |}
           (String.list_byte_of_string "cold") (ClientError "SlowDown") []
           (with_faults [None; None; Some (ClientError "SlowDown")] cold_world));
    reflexivity.
Defined.

(** ** Construction: the TTL index *)

(** A failure of [create_index] that is not an [OperationFailure] leaves
    [__init__] through its [except] clause untouched. *)
Lemma init_propagates_other_classes self days e rest w :
  default_ttl_days self = Some days →
  days ≠ 0%Z →
  isinstance_OperationFailure e = false →
  faults w = Some e :: rest →
  (__init__ self w).1 = Raise e.
Proof.
  intros Hdays Hnonzero Hclass Hfaults. unfold __init__. rewrite Hdays.
  rewrite decide_False by done. unfold try_except, create_index.
  rewrite (client_call_fault _ _ _ _ _ Hfaults). by rewrite Hclass.
Qed.

(** An index that exists with another TTL is dropped and created anew. *)
Lemma init_replaces_conflicting_index self days old w :
  default_ttl_days self = Some days →
  days ≠ 0%Z →
  faults w = [] →
  indexes w !! "created_day_ttl" = Some old →
  old ≠ (days * 24 * 3600)%Z →
  ∃ w', __init__ self w = (Ok tt, w') ∧
    indexes w' = <["created_day_ttl" := (days * 24 * 3600)%Z]> (indexes w).
Proof.
  intros Hdays Hnonzero Hquiet Hold Hne. unfold __init__. rewrite Hdays.
  rewrite decide_False by done. unfold try_except, create_index at 1.
  rewrite client_call_quiet by done. rewrite Hold.
  rewrite decide_False by done. simpl. rewrite bind_run.
  unfold drop_index. rewrite client_call_quiet by done. simpl. rewrite Hold.
  unfold create_index. rewrite client_call_quiet by done. simpl.
  rewrite lookup_delete_eq. eexists. split; [reflexivity|]. simpl.
  by rewrite insert_delete_eq.
Qed.

(** C9, on the code: an [OperationFailure] of [create_index] whose message
    does not report an option conflict is caught and dropped; [__init__]
    returns normally and no index has been created. *)
Theorem init_swallows_operation_failure self days msg rest w :
  default_ttl_days self = Some days →
  days ≠ 0%Z →
  contains "already exists with different options" msg = false →
  faults w = Some (OperationFailure msg) :: rest →
  ∃ w', __init__ self w = (Ok tt, w') ∧
    indexes w' = indexes w ∧ collection w' = collection w ∧ faults w' = rest.
Proof.
  intros Hdays Hnonzero Hmsg Hfaults. unfold __init__. rewrite Hdays.
  rewrite decide_False by done. unfold try_except, create_index.
  rewrite (client_call_fault _ _ _ _ _ Hfaults). cbn [isinstance_OperationFailure str].
  rewrite Hmsg. eexists. split; [reflexivity|]. done.
Qed.

Lemma init_swallows_operation_failure_witness :
  ∃ w', __init__ example_storage
          (with_faults [Some (OperationFailure "not authorized on sentry_nodestore to execute command")]
             cold_world) = (Ok tt, w') ∧
    indexes w' = indexes cold_world ∧ collection w' = collection cold_world ∧
    faults w' = [].
Proof.
  apply (init_swallows_operation_failure example_storage 30
           "not authorized on sentry_nodestore to execute command" []
           (with_faults [Some (OperationFailure "not authorized on sentry_nodestore to execute command")]
              cold_world)); [reflexivity | lia | reflexivity | reflexivity].
Defined.

(** ** Batched reads *)

Lemma append_inj_r (p x y : string) : p +:+ x = p +:+ y → x = y.
Proof. induction p as [|a p IH]; simpl; [done|]. intros [= H]. by apply IH. Qed.

Lemma archive_key_inj self x y : archive_key self x = archive_key self y → x = y.
Proof.
  unfold archive_key, __get_key_for_id. intros [= H].
  destruct (bucket_path self) as [path|]; [|done].
  apply append_inj_r in H. by apply append_inj_r in H.
Qed.

Lemma occurrences_cons id x ids :
  occurrences id (x :: ids) =
    if decide (x = id) then S (occurrences id ids) else occurrences id ids.
Proof. unfold occurrences. rewrite filter_cons. by case_decide. Qed.

Lemma occurrences_elem_of id ids : id ∈ ids → 0 < occurrences id ids.
Proof.
  intros Hin. unfold occurrences.
  assert (id ∈ filter (λ x, x = id) ids) as Hf by (by apply list_elem_of_filter).
  destruct (filter _ ids); [by apply not_elem_of_nil in Hf | simpl; lia].
Qed.

Lemma __read_from_bucket_quiet ZstdCodec self id w :
  faults w = [] →
  compression_valid ZstdCodec self = true →
  bucket_decodable ZstdCodec (bucket w) →
  ∃ v w', __read_from_bucket ZstdCodec self id w = (Ok v, w') ∧
    faults w' = [] ∧ utcnow w' = utcnow w ∧
    match bucket w !! archive_key self id with
    | None => v = None ∧ collection w' = collection w ∧ bucket w' = bucket w
    | Some obj => ∃ value,
        object_value ZstdCodec obj = Some value ∧ v = Some value ∧
        collection w' = <[id := stored_entry ZstdCodec self (utcnow w) value]> (collection w) ∧
        bucket w' = delete (archive_key self id) (bucket w)
    end.
Proof.
  intros Hquiet Hvalid Hdec.
  destruct (bucket w !! archive_key self id) as [obj|] eqn:Hobj.
  - destruct (Hdec _ _ Hobj) as [value Hvalue].
    destruct (__read_from_bucket_hit_quiet ZstdCodec self id obj value w)
      as (w' & Hrun & Hc & Hb & _ & Hn & Hf & _); [done..|].
    exists (Some value), w'. eauto 10.
  - rewrite __read_from_bucket_miss_quiet by done. eexists _, _.
    split; [reflexivity|]. done.
Qed.

(** The fallback loop of [_get_bytes_multi] on a world without failures. *)
Lemma fallback_loop_quiet ZstdCodec self xs :
  ∀ (result : gmap string (option bytes)) w,
  faults w = [] →
  compression_valid ZstdCodec self = true →
  bucket_decodable ZstdCodec (bucket w) →
  ∃ result' w',
    for_each xs (λ result id_,
      v ← __read_from_bucket ZstdCodec self id_;
      mret (<[id_ := v]> result)) result w = (Ok result', w') ∧
    faults w' = [] ∧ utcnow w' = utcnow w ∧
    bucket_decodable ZstdCodec (bucket w') ∧
    ∀ id,
      (id ∉ xs →
         result' !! id = result !! id ∧
         collection w' !! id = collection w !! id ∧
         bucket w' !! archive_key self id = bucket w !! archive_key self id) ∧
      (id ∈ xs →
         bucket w' !! archive_key self id = None ∧
         match bucket w !! archive_key self id with
         | None =>
             result' !! id = Some None ∧ collection w' !! id = collection w !! id
         | Some obj => ∃ value,
             object_value ZstdCodec obj = Some value ∧
             collection w' !! id = Some (stored_entry ZstdCodec self (utcnow w) value) ∧
             (occurrences id xs = 1 → result' !! id = Some (Some value))
         end).
Proof.
  induction xs as [|x rest IH]; intros result w Hquiet Hvalid Hdec.
  { exists result, w. split; [reflexivity|]. do 3 (split; [done|]).
    intros id. split; [done|]. intros Hin. by apply not_elem_of_nil in Hin. }
  destruct (__read_from_bucket_quiet ZstdCodec self x w)
    as (v & w1 & Hrun & Hf1 & Hn1 & Hstep); [done..|].
  assert (bucket_decodable ZstdCodec (bucket w1)) as Hdec1.
  { destruct (bucket w !! archive_key self x) as [obj|].
    - destruct Hstep as (value & _ & _ & _ & ->). by apply map_Forall_delete.
    - destruct Hstep as (_ & _ & ->). done. }
  destruct (IH (<[x := v]> result) w1) as (result' & w' & Hloop & Hf' & Hn' & Hdec' & Hall);
    [done..|].
  exists result', w'. split.
  { simpl. rewrite bind_run, bind_run, Hrun. exact Hloop. }
  split; [done|]. split; [congruence|]. split; [done|].
  intros id. destruct (Hall id) as [Hout Hin]. split.
  - intros Hnotin. apply not_elem_of_cons in Hnotin as [Hne Hnotin].
    destruct (Hout Hnotin) as (Hr & Hc & Hb).
    rewrite Hr, Hc, Hb, lookup_insert_ne by done.
    assert (archive_key self x ≠ archive_key self id) as Hkey
      by (intros Heq; by apply archive_key_inj in Heq).
    destruct (bucket w !! archive_key self x) as [obj|].
    + destruct Hstep as (value & _ & _ & -> & ->).
      by rewrite lookup_insert_ne, lookup_delete_ne.
    + destruct Hstep as (_ & -> & ->). done.
  - intros Hmem. rewrite occurrences_cons.
    destruct (decide (x = id)) as [->|Hne].
    + (* this iteration reads [id] *)
      destruct (decide (id ∈ rest)) as [Hagain|Hlast].
      * destruct (Hin Hagain) as [Hgone Hlater]. split; [done|].
        destruct (bucket w !! archive_key self id) as [obj|] eqn:Hobj.
        -- destruct Hstep as (value & Hvalue & _ & Hc1 & Hb1).
           rewrite Hb1, lookup_delete_eq in Hlater. destruct Hlater as [_ Hc'].
           exists value. split; [done|]. split.
           ++ by rewrite Hc', Hc1, lookup_insert_eq.
           ++ intros Hone. pose proof (occurrences_elem_of id rest Hagain). lia.
        -- destruct Hstep as (_ & Hc1 & Hb1).
           rewrite Hb1, Hobj in Hlater. destruct Hlater as [Hr' Hc'].
           by rewrite Hr', Hc', Hc1.
      * destruct (Hout Hlast) as (Hr & Hc & Hb). rewrite Hr, Hc, Hb, lookup_insert_eq.
        destruct (bucket w !! archive_key self id) as [obj|] eqn:Hobj.
        -- destruct Hstep as (value & Hvalue & -> & -> & ->).
           rewrite lookup_delete_eq, lookup_insert_eq. split; [done|].
           exists value. done.
        -- destruct Hstep as (-> & -> & ->). done.
    + (* this iteration reads another id *)
      apply elem_of_cons in Hmem as [Heq|Hmem]; [congruence|].
      destruct (Hin Hmem) as [Hgone Hlater]. split; [done|].
      assert (archive_key self x ≠ archive_key self id) as Hkey
        by (intros Heq; by apply archive_key_inj in Heq).
      assert (bucket w1 !! archive_key self id = bucket w !! archive_key self id ∧
              collection w1 !! id = collection w !! id) as [Hb1 Hc1].
      { destruct (bucket w !! archive_key self x) as [obj|].
        - destruct Hstep as (value & _ & _ & -> & ->).
          by rewrite lookup_insert_ne, lookup_delete_ne.
        - destruct Hstep as (_ & -> & ->). done. }
      rewrite Hb1, Hc1, Hn1 in Hlater. exact Hlater.
Qed.

Lemma occurrences_filter (P : string → Prop) `{!∀ x, Decision (P x)} id ids :
  P id → occurrences id (filter P ids) = occurrences id ids.
Proof.
  intros HP. induction ids as [|x rest IH]; [done|].
  rewrite filter_cons. destruct (decide (P x)) as [HPx|HPx].
  - rewrite !occurrences_cons, IH. done.
  - rewrite occurrences_cons, IH. rewrite decide_False; [done|]. congruence.
Qed.

Lemma find_quiet ids w :
  faults w = [] →
  find ids w =
    (Ok ((λ kv, doc_of kv.1 kv.2) <$>
           map_to_list (filter (λ kv, kv.1 ∈ ids) (collection w))),
     record_call (find_call ids) w).
Proof. intros Hquiet. unfold find. by rewrite client_call_quiet. Qed.

Lemma found_docs_ids (ids : list string) (c : gmap string Entry) (id : string) :
  id ∈ _id <$> ((λ kv, doc_of kv.1 kv.2) <$>
                  map_to_list (filter (λ kv, kv.1 ∈ ids) c))
  ↔ id ∈ ids ∧ is_Some (c !! id).
Proof.
  rewrite <- list_fmap_compose. rewrite list_elem_of_fmap. split.
  - intros ([k e] & -> & Hin). apply elem_of_map_to_list in Hin.
    apply map_lookup_filter_Some in Hin as [Hlookup Hk]. simpl in *. eauto.
  - intros [Hin [e Hlookup]]. exists (id, e). split; [done|].
    apply elem_of_map_to_list. by apply map_lookup_filter_Some.
Qed.

Lemma found_docs_decodable ZstdCodec (ids : list string) (c : gmap string Entry) :
  collection_decodable ZstdCodec c →
  Forall (λ doc, is_Some (decoded (compression_strategies ZstdCodec !! content_encoding doc)
                            (data doc)))
    ((λ kv, doc_of kv.1 kv.2) <$> map_to_list (filter (λ kv, kv.1 ∈ ids) c)).
Proof.
  intros Hdec. apply Forall_fmap, Forall_forall. intros [k e] Hin.
  apply elem_of_map_to_list in Hin. apply map_lookup_filter_Some in Hin as [Hlookup _].
  exact (Hdec _ _ Hlookup).
Qed.

(** The loop over the documents found in the collection. *)
Lemma decode_loop_run ZstdCodec docs :
  ∀ (result : gmap string (option bytes)) w,
  Forall (λ doc, is_Some (decoded (compression_strategies ZstdCodec !! content_encoding doc)
                            (data doc))) docs →
  ∃ result',
    for_each docs (λ result doc,
      let codec := compression_strategies ZstdCodec !! content_encoding doc in
      v ← decode_if codec (data doc);
      mret (<[_id doc := Some v]> result)) result w = (Ok result', w) ∧
    ∀ id,
      (id ∉ _id <$> docs → result' !! id = result !! id) ∧
      (id ∈ _id <$> docs → is_Some (result' !! id)).
Proof.
  induction docs as [|doc rest IH]; intros result w Hdec.
  { exists result. split; [reflexivity|]. intros id. split; [done|].
    intros Hin. by apply not_elem_of_nil in Hin. }
  apply Forall_cons in Hdec as [[v Hv] Hrest].
  destruct (IH (<[_id doc := Some v]> result) w Hrest) as (result' & Hloop & Hall).
  exists result'. split.
  { simpl. rewrite bind_run, bind_run, decode_if_run, Hv. exact Hloop. }
  intros id. destruct (Hall id) as [Hout Hin]. rewrite fmap_cons. split.
  - intros Hnotin. apply not_elem_of_cons in Hnotin as [Hne Hnotin].
    rewrite (Hout Hnotin). by rewrite lookup_insert_ne.
  - intros Hmem. destruct (decide (id ∈ _id <$> rest)) as [Hlater|Hlast]; [by apply Hin|].
    apply elem_of_cons in Hmem as [->|Hmem]; [|done].
    rewrite (Hout Hlast), lookup_insert_eq. done.
Qed.

(** The last loop, which gives the absent value to the ids still missing. *)
Lemma fill_loop_run (ids : list string) :
  ∀ (result : gmap string (option bytes)) w,
  ∃ result',
    for_each ids (λ result id_,
      match result !! id_ with
      | None => mret (<[id_ := None]> result)
      | Some _ => mret result
      end) result w = (Ok result', w) ∧
    ∀ id, result' !! id =
      match result !! id with
      | Some v => Some v
      | None => if decide (id ∈ ids) then Some None else None
      end.
Proof.
  induction ids as [|x rest IH]; intros result w.
  { exists result. split; [reflexivity|]. intros id.
    rewrite decide_False by apply not_elem_of_nil. by destruct (result !! id). }
  destruct (result !! x) as [vx|] eqn:Hx.
  - destruct (IH result w) as (result' & Hloop & Hall). exists result'. split.
    { simpl. rewrite bind_run, Hx. exact Hloop. }
    intros id. rewrite Hall. destruct (result !! id) eqn:Hid; [done|].
    assert (id ≠ x) by congruence.
    destruct (decide (id ∈ rest)).
    + rewrite decide_True; [done | by apply elem_of_cons; right].
    + rewrite decide_False; [done|]. by apply not_elem_of_cons.
  - destruct (IH (<[x := None]> result) w) as (result' & Hloop & Hall).
    exists result'. split.
    { simpl. rewrite bind_run, Hx. exact Hloop. }
    intros id. rewrite Hall. destruct (decide (id = x)) as [->|Hne].
    + rewrite lookup_insert_eq, Hx. rewrite decide_True; [done | by apply elem_of_cons; left].
    + rewrite lookup_insert_ne by done. destruct (result !! id); [done|].
      destruct (decide (id ∈ rest)).
      * rewrite decide_True; [done | by apply elem_of_cons; right].
      * rewrite decide_False; [done|]. by apply not_elem_of_cons.
Qed.

Lemma _get_bytes_multi_quiet ZstdCodec self ids w :
  faults w = [] →
  collection_decodable ZstdCodec (collection w) →
  archive_ready ZstdCodec self w →
  ∃ result w',
    _get_bytes_multi ZstdCodec self ids w = (Ok result, w') ∧
    (∀ id, is_Some (result !! id) ↔ id ∈ ids) ∧
    (∀ id, id ∈ ids → collection w !! id = None →
           (read_from_s3 self = true → bucket w !! archive_key self id = None) →
           result !! id = Some None) ∧
    (∀ id obj, read_from_s3 self = true → id ∈ ids → collection w !! id = None →
           bucket w !! archive_key self id = Some obj →
           ∃ value, object_value ZstdCodec obj = Some value ∧
             collection w' !! id = Some (stored_entry ZstdCodec self (utcnow w) value) ∧
             bucket w' !! archive_key self id = None ∧
             (occurrences id ids = 1 → result !! id = Some (Some value))).
Proof.
  intros Hquiet Hcdec Hready. unfold _get_bytes_multi.
  rewrite bind_run, find_quiet by done. cbv zeta.
  set (docs := (λ kv, doc_of kv.1 kv.2) <$> map_to_list _).
  destruct (decode_loop_run ZstdCodec docs ∅ (record_call (find_call ids) w))
    as (result2 & Hloop2 & Hall2).
  { by apply found_docs_decodable. }
  cbv zeta in Hloop2. rewrite bind_run, Hloop2.
  assert (∀ id, is_Some (result2 !! id) ↔ id ∈ ids ∧ is_Some (collection w !! id)) as Hres2.
  { intros id. rewrite <- found_docs_ids. fold docs. destruct (Hall2 id) as [Hout Hin].
    split; [|done]. intros Hsome. destruct (decide (id ∈ _id <$> docs)) as [|Hnotin]; [done|].
    rewrite (Hout Hnotin), lookup_empty in Hsome. by destruct Hsome. }
  assert (∀ id, id ∈ ids → collection w !! id = None → result2 !! id = None) as Hmiss2.
  { intros id Hin Hnone. apply eq_None_not_Some. rewrite Hres2, Hnone. intros [_ []]. done. }
  rewrite bind_run.
  destruct (read_from_s3 self) eqn:Hs3.
  - destruct (Hready Hs3) as [Hvalid Hbdec].
    set (missing_ids := filter (λ id_, result2 !! id_ = None) ids).
    destruct (fallback_loop_quiet ZstdCodec self missing_ids result2
                (record_call (find_call ids) w))
      as (result3 & w3 & Hloop3 & _ & _ & _ & Hall3); [done..|].
    rewrite Hloop3, bind_run.
    destruct (fill_loop_run ids result3 w3) as (result4 & Hloop4 & Hall4).
    rewrite Hloop4. exists result4, w3. split; [reflexivity|].
    assert (∀ id, id ∈ missing_ids ↔ result2 !! id = None ∧ id ∈ ids) as Hmissing
      by (intros id; apply (list_elem_of_filter (λ id_, result2 !! id_ = None))).
    split; [|split].
    + intros id. rewrite Hall4. destruct (Hall3 id) as [Hout Hin].
      destruct (result3 !! id) as [v|] eqn:H3.
      * split; [|by eauto]. intros _.
        destruct (decide (id ∈ missing_ids)) as [Hm|Hm]; [by apply Hmissing in Hm as [_ ?]|].
        destruct (Hout Hm) as [H2 _].
        apply (proj1 (Hres2 id)). by rewrite <- H2.
      * case_decide; [by split; eauto|]. split; [by intros []|done].
    + intros id Hin Hnone Hgone. rewrite Hall4.
      assert (id ∈ missing_ids) as Hm by (apply Hmissing; eauto).
      destruct (Hall3 id) as [_ Hfacts]. destruct (Hfacts Hm) as [_ Hcase].
      simpl in Hcase. rewrite (Hgone eq_refl) in Hcase. destruct Hcase as [-> _]. done.
    + intros id obj _ Hin Hnone Hobj.
      assert (id ∈ missing_ids) as Hm by (apply Hmissing; eauto).
      destruct (Hall3 id) as [_ Hfacts]. destruct (Hfacts Hm) as [Hgone Hcase].
      simpl in Hcase. rewrite Hobj in Hcase.
      destruct Hcase as (value & Hvalue & Hc & Hone).
      exists value. split; [done|]. split; [done|]. split; [done|].
      intros Honce. rewrite Hall4, Hone; [done|].
      unfold missing_ids. rewrite occurrences_filter; [done|]. by apply Hmiss2.
  - change ((mret result2 : M _) (record_call (find_call ids) w))
      with (Ok result2, record_call (find_call ids) w).
    cbv beta iota. rewrite bind_run.
    destruct (fill_loop_run ids result2 (record_call (find_call ids) w))
      as (result4 & Hloop4 & Hall4).
    rewrite Hloop4. eexists result4, _. split; [reflexivity|].
    split; [|split].
    + intros id. rewrite Hall4. destruct (result2 !! id) as [v|] eqn:H2.
      * split; [|by eauto]. intros _. apply (proj1 (Hres2 id)). by rewrite H2.
      * case_decide; [by split; eauto|]. split; [by intros []|done].
    + intros id Hin Hnone _. rewrite Hall4, (Hmiss2 id Hin Hnone).
      by rewrite decide_True.
    + intros id obj Hfalse. discriminate.
Qed.

(** C7. On a world whose services do not fail and whose contents decode,
    [_get_bytes_multi] returns a mapping whose keys are exactly the
    distinct input ids (one entry each, duplicates collapsed), and every
    input id that is in neither enabled tier maps to [None]. *)
Theorem batched_completeness ZstdCodec self (ids : list string) w :
  faults w = [] →
  collection_decodable ZstdCodec (collection w) →
  archive_ready ZstdCodec self w →
  ∃ result w',
    _get_bytes_multi ZstdCodec self ids w = (Ok result, w') ∧
    dom result = list_to_set ids ∧
    size result = length (remove_dups ids) ∧
    ∀ id, id ∈ ids →
      collection w !! id = None →
      (read_from_s3 self = true → bucket w !! archive_key self id = None) →
      result !! id = Some None.
Proof.
  intros Hquiet Hcdec Hready.
  destruct (_get_bytes_multi_quiet ZstdCodec self ids w)
    as (result & w' & Hrun & Hkeys & Habsent & _); [done..|].
  exists result, w'. split; [done|].
  assert (dom result = list_to_set ids) as Hdom.
  { apply set_eq. intros id. by rewrite elem_of_dom, elem_of_list_to_set. }
  split; [done|]. split; [|done].
  rewrite <- size_dom, Hdom.
  rewrite <- (size_list_to_set (C := gset string) (remove_dups ids))
    by apply NoDup_remove_dups.
  f_equal. apply set_eq. intros id.
  by rewrite !elem_of_list_to_set, elem_of_remove_dups.
Qed.

Lemma batched_completeness_witness :
  ∃ result w',
    _get_bytes_multi ZeroRunCodec example_storage ["e2"; "ghost"; "e2"; "ghost"] cold_world
      = (Ok result, w') ∧
    dom result = list_to_set ["e2"; "ghost"; "e2"; "ghost"] ∧
    size result = length (remove_dups ["e2"; "ghost"; "e2"; "ghost"]) ∧
    ∀ id, id ∈ ["e2"; "ghost"; "e2"; "ghost"] →
      collection cold_world !! id = None →
      (read_from_s3 example_storage = true →
       bucket cold_world !! archive_key example_storage id = None) →
      result !! id = Some None.
Proof.
  apply (batched_completeness ZeroRunCodec example_storage
           ["e2"; "ghost"; "e2"; "ghost"] cold_world).
  - reflexivity.
  - apply map_Forall_empty.
  - intros _. split; [reflexivity|]. apply map_Forall_singleton. by eexists.
Defined.

(** C1, as stated, fails: the batched read of the archival-only id
    ["e2"] writes it to the primary tier and deletes the archival object. *)
Lemma batched_read_counterexample :
  collection cold_world !! "e2" = None ∧
  is_Some (bucket cold_world !! archive_key example_storage "e2") ∧
  ∃ result w',
    _get_bytes_multi ZeroRunCodec example_storage ["e2"] cold_world = (Ok result, w') ∧
    result !! "e2" = Some (Some (String.list_byte_of_string "cold")) ∧
    is_Some (collection w' !! "e2") ∧
    bucket w' !! archive_key example_storage "e2" = None.
Proof.
  split; [reflexivity|]. split; [by eexists|].
  eexists _, _. split; [vm_compute; reflexivity|].
  split; [vm_compute; reflexivity|]. split; [by eexists|]. reflexivity.
Qed.

(** C1, amended. The batched read reads the archival tier through the
    helper of the single-id read: an input id that misses the primary tier
    and hits the archival tier is migrated (after the call the primary
    tier holds the value as a write would store it, and the archival tier
    no longer holds the object), and an id that occurs once in the list is
    returned decoded. *)
Theorem batched_read_migrates ZstdCodec self (ids : list string) id obj w :
  read_from_s3 self = true →
  compression_valid ZstdCodec self = true →
  faults w = [] →
  collection_decodable ZstdCodec (collection w) →
  bucket_decodable ZstdCodec (bucket w) →
  id ∈ ids →
  collection w !! id = None →
  bucket w !! archive_key self id = Some obj →
  ∃ result w' value,
    _get_bytes_multi ZstdCodec self ids w = (Ok result, w') ∧
    object_value ZstdCodec obj = Some value ∧
    (occurrences id ids = 1 → result !! id = Some (Some value)) ∧
    collection w' !! id = Some (stored_entry ZstdCodec self (utcnow w) value) ∧
    bucket w' !! archive_key self id = None.
Proof.
  intros Hs3 Hvalid Hquiet Hcdec Hbdec Hin Hmiss Hobj.
  destruct (_get_bytes_multi_quiet ZstdCodec self ids w)
    as (result & w' & Hrun & _ & _ & Hhit); [done | done | by intros _ |].
  destruct (Hhit id obj Hs3 Hin Hmiss Hobj) as (value & Hvalue & Hc & Hb & Hone).
  exists result, w', value. done.
Qed.

Lemma batched_read_migrates_witness :
  ∃ result w' value,
    _get_bytes_multi ZeroRunCodec example_storage ["ghost"; "e2"] cold_world
      = (Ok result, w') ∧
    object_value ZeroRunCodec
      {| Body := String.list_byte_of_string "cold"; ContentEncoding := None |} = Some value ∧
    (occurrences "e2" ["ghost"; "e2"] = 1 → result !! "e2" = Some (Some value)) ∧
    collection w' !! "e2"
      = Some (stored_entry ZeroRunCodec example_storage (utcnow cold_world) value) ∧
    bucket w' !! archive_key example_storage "e2" = None.
Proof.
  apply (batched_read_migrates ZeroRunCodec example_storage ["ghost"; "e2"] "e2"
           {| Body := String.list_byte_of_string "cold"; ContentEncoding := None |}
           cold_world).
  - reflexivity.
  - reflexivity.
  - reflexivity.
  - apply map_Forall_empty.
  - apply map_Forall_singleton. by eexists.
  - apply elem_of_cons. right. apply elem_of_cons. by left.
  - reflexivity.
  - reflexivity.
Defined.

(** The fallback loop runs once per occurrence of an id: the second read
    of an id migrated by the first finds the archival object gone, and the
    mapping gives the absent value for an id that was archived. *)
Example batched_read_duplicate_id :
  ∃ result w',
    _get_bytes_multi ZeroRunCodec example_storage ["e2"; "e2"] cold_world
      = (Ok result, w') ∧
    result !! "e2" = Some None ∧
    is_Some (collection w' !! "e2") ∧
    bucket w' !! archive_key example_storage "e2" = None.
Proof.
  eexists _, _. split; [vm_compute; reflexivity|].
  split; [vm_compute; reflexivity|]. split; [by eexists | reflexivity].
Qed.

(** ** Batched reads when services may fail *)

Lemma archive_shrinks_ret {A} (a : A) : archive_shrinks (mret a).
Proof. intros w res w' [= _ <-]. done. Qed.

Lemma archive_shrinks_raise {A} e : archive_shrinks (raise e : M A).
Proof. intros w res w' [= _ <-]. done. Qed.

Lemma archive_shrinks_bind {A B} (m : M A) (k : A → M B) :
  archive_shrinks m → (∀ a, archive_shrinks (k a)) → archive_shrinks (m ≫= k).
Proof.
  intros Hm Hk w res w'. rewrite bind_run.
  destruct (m w) as [[a|e] w1] eqn:Hrun; specialize (Hm _ _ _ Hrun).
  - intros Hrun'. specialize (Hk _ _ _ _ Hrun'). by etrans.
  - by intros [= _ <-].
Qed.

Lemma archive_shrinks_try_except {A} (body : M A) handler :
  archive_shrinks body →
  (∀ e h, handler e = Some h → archive_shrinks h) →
  archive_shrinks (try_except body handler).
Proof.
  intros Hbody Hhandler w res w'. unfold try_except.
  destruct (body w) as [[a|e] w1] eqn:Hrun; specialize (Hbody _ _ _ Hrun).
  - by intros [= _ <-].
  - destruct (handler e) as [h|] eqn:Hh.
    + intros Hrun'. specialize (Hhandler _ _ Hh _ _ _ Hrun'). by etrans.
    + by intros [= _ <-].
Qed.

Lemma archive_shrinks_client_call {A} c (op : M A) :
  archive_shrinks op → archive_shrinks (client_call c op).
Proof.
  intros Hop w res w'. unfold client_call.
  destruct (faults w) as [|[e|] rest].
  - destruct (op w) as [r w1] eqn:Hrun. intros [= _ <-]. exact (Hop _ _ _ Hrun).
  - by intros [= _ <-].
  - destruct (op (set_faults rest w)) as [r w1] eqn:Hrun. intros [= _ <-].
    exact (Hop _ _ _ Hrun).
Qed.

Lemma archive_shrinks__set_bytes ZstdCodec self id payload :
  archive_shrinks (_set_bytes ZstdCodec self id payload).
Proof.
  unfold _set_bytes. apply archive_shrinks_bind.
  { destruct (compression self) as [name|]; [|apply archive_shrinks_ret].
    case_decide; [apply archive_shrinks_ret|].
    destruct (compression_strategies ZstdCodec !! name); [|apply archive_shrinks_raise].
    simpl. case_decide; apply archive_shrinks_ret. }
  intros [stored tag]. apply archive_shrinks_bind.
  { intros w res w' [= _ <-]. done. }
  intros created_dt. apply archive_shrinks_try_except.
  - apply archive_shrinks_client_call. intros w res w'.
    destruct (collection w !! _); intros [= _ <-]; done.
  - intros e h. destruct (isinstance_DuplicateKeyError e); [|done]. intros [= <-].
    apply archive_shrinks_client_call. intros w res w'.
    destruct (collection w !! _); [case_decide|]; intros [= _ <-]; done.
Qed.

Lemma archive_shrinks__read_from_bucket ZstdCodec self id :
  archive_shrinks (__read_from_bucket ZstdCodec self id).
Proof.
  unfold __read_from_bucket. apply archive_shrinks_try_except.
  - apply archive_shrinks_bind.
    { apply archive_shrinks_client_call. intros w res w'.
      destruct (bucket w !! _); intros [= _ <-]; done. }
    intros obj. apply archive_shrinks_bind.
    { intros w res w'. rewrite decode_if_run. by intros [= _ <-]. }
    intros value. apply archive_shrinks_bind; [|intros; apply archive_shrinks_ret].
    apply archive_shrinks_try_except.
    + apply archive_shrinks_bind; [|intros; apply archive_shrinks__set_bytes].
      apply archive_shrinks_client_call. intros w res w'.
      destruct (bucket w !! _); intros [= _ <-]; [apply delete_subseteq | done].
    + intros e h. destruct (isinstance_NoSuchKey e); [|done]. intros [= <-].
      apply archive_shrinks_ret.
  - intros e h. destruct (isinstance_NoSuchKey e); [|done]. intros [= <-].
    apply archive_shrinks_ret.
Qed.

(** A read of a key the bucket does not hold gives the absent value or
    fails; it never produces bytes. *)
Lemma __read_from_bucket_absent ZstdCodec self id w v w' :
  bucket w !! archive_key self id = None →
  __read_from_bucket ZstdCodec self id w = (Ok v, w') →
  v = None.
Proof.
  intros Hmiss. unfold archive_key in Hmiss.
  unfold __read_from_bucket, try_except at 1. rewrite bind_run.
  unfold get_object, client_call.
  destruct (faults w) as [|[e|] rest]; simpl; rewrite ?Hmiss; simpl.
  - by intros [= <- _].
  - destruct (isinstance_NoSuchKey e); [by intros [= <- _] | done].
  - by intros [= <- _].
Qed.

Lemma find_tiers ids w docs w' :
  find ids w = (Ok docs, w') →
  docs = ((λ kv, doc_of kv.1 kv.2) <$>
            map_to_list (filter (λ kv, kv.1 ∈ ids) (collection w))) ∧
  collection w' = collection w ∧ bucket w' = bucket w.
Proof.
  unfold find, client_call.
  destruct (faults w) as [|[e|] rest]; simpl; [|done|]; by intros [= <- <-].
Qed.

Lemma decode_loop_any ZstdCodec docs :
  ∀ (result : gmap string (option bytes)) w result' w',
  for_each docs (λ result doc,
    let codec := compression_strategies ZstdCodec !! content_encoding doc in
    v ← decode_if codec (data doc);
    mret (<[_id doc := Some v]> result)) result w = (Ok result', w') →
  w' = w ∧
  ∀ id,
    (id ∉ _id <$> docs → result' !! id = result !! id) ∧
    (id ∈ _id <$> docs → is_Some (result' !! id)).
Proof.
  induction docs as [|doc rest IH]; intros result w result' w'.
  { intros [= <- <-]. split; [done|]. intros id. split; [done|].
    intros Hin. by apply not_elem_of_nil in Hin. }
  simpl. rewrite bind_run, bind_run, decode_if_run.
  destruct (decoded _ (data doc)) as [v|]; [|done].
  intros Hloop. destruct (IH _ _ _ _ Hloop) as [-> Hall]. split; [done|].
  intros id. destruct (Hall id) as [Hout Hin]. split.
  - intros Hnotin. apply not_elem_of_cons in Hnotin as [Hne Hnotin].
    rewrite (Hout Hnotin). by rewrite lookup_insert_ne.
  - intros Hmem. destruct (decide (id ∈ _id <$> rest)) as [Hlater|Hlast]; [by apply Hin|].
    apply elem_of_cons in Hmem as [->|Hmem]; [|done].
    rewrite (Hout Hlast), lookup_insert_eq. done.
Qed.

Lemma fallback_loop_any ZstdCodec self xs :
  ∀ (result : gmap string (option bytes)) w result' w',
  for_each xs (λ result id_,
    v ← __read_from_bucket ZstdCodec self id_;
    mret (<[id_ := v]> result)) result w = (Ok result', w') →
  ∀ id,
    (id ∉ xs → result' !! id = result !! id) ∧
    (bucket w !! archive_key self id = None →
     id ∈ xs ∨ result !! id = Some None →
     result' !! id = Some None).
Proof.
  induction xs as [|x rest IH]; intros result w result' w'.
  { intros [= <- <-] id. split; [done|]. intros _ [Hin|Hnone]; [|done].
    by apply not_elem_of_nil in Hin. }
  simpl. rewrite bind_run, bind_run.
  destruct (__read_from_bucket ZstdCodec self x w) as [[v|e] w1] eqn:Hread; [|done].
  intros Hloop id. destruct (IH _ _ _ _ Hloop id) as [Hout Hin]. split.
  - intros Hnotin. apply not_elem_of_cons in Hnotin as [Hne Hnotin].
    rewrite (Hout Hnotin). by rewrite lookup_insert_ne.
  - intros Hmiss Hcase. apply Hin.
    { eapply lookup_weaken_None; [exact Hmiss|].
      exact (archive_shrinks__read_from_bucket _ _ _ _ _ _ Hread). }
    destruct (decide (id = x)) as [->|Hne].
    + right. rewrite lookup_insert_eq.
      by rewrite (__read_from_bucket_absent _ _ _ _ _ _ Hmiss Hread).
    + rewrite lookup_insert_ne by done.
      destruct Hcase as [Hmem|Hnone]; [|by right].
      apply elem_of_cons in Hmem as [?|Hmem]; [done | by left].
Qed.

(** Whatever the services do, a mapping [_get_bytes_multi] returns has
    exactly the distinct input ids as keys, and gives [None] to every
    input id that was in neither enabled tier. *)
Lemma _get_bytes_multi_any ZstdCodec self (ids : list string) w result w' :
  _get_bytes_multi ZstdCodec self ids w = (Ok result, w') →
  dom result = list_to_set ids ∧
  ∀ id, id ∈ ids →
    collection w !! id = None →
    (read_from_s3 self = true → bucket w !! archive_key self id = None) →
    result !! id = Some None.
Proof.
  unfold _get_bytes_multi. rewrite bind_run.
  destruct (find ids w) as [[docs|e] w1] eqn:Hfind; [|done].
  apply find_tiers in Hfind as (Hdocs & Hc1 & Hb1). cbv zeta. rewrite bind_run.
  match goal with |- context [for_each docs ?body ∅ w1] =>
    destruct (for_each docs body ∅ w1) as [[result2|e] w2] eqn:Hloop2; [|done] end.
  apply (decode_loop_any ZstdCodec) in Hloop2 as [-> Hall2].
  assert (∀ id, is_Some (result2 !! id) ↔ id ∈ ids ∧ is_Some (collection w !! id)) as Hres2.
  { intros id. rewrite <- found_docs_ids, <- Hdocs. destruct (Hall2 id) as [Hout Hin].
    split; [|done]. intros Hsome. destruct (decide (id ∈ _id <$> docs)) as [|Hnotin]; [done|].
    rewrite (Hout Hnotin), lookup_empty in Hsome. by destruct Hsome. }
  assert (∀ id, id ∈ ids → collection w !! id = None → result2 !! id = None) as Hmiss2.
  { intros id Hin Hnone. apply eq_None_not_Some. rewrite Hres2, Hnone. intros [_ []]. done. }
  rewrite bind_run.
  match goal with |- context [(if read_from_s3 self then ?m else ?m') w1] =>
    destruct ((if read_from_s3 self then m else m') w1) as [[result3|e] w3] eqn:Hloop3;
      [|done] end.
  rewrite bind_run.
  destruct (fill_loop_run ids result3 w3) as (result4 & Hloop4 & Hall4).
  rewrite Hloop4. intros [= <- <-].
  assert (∀ id, (is_Some (result3 !! id) → id ∈ ids) ∧
                (id ∈ ids → collection w !! id = None →
                 (read_from_s3 self = true → bucket w !! archive_key self id = None) →
                 result3 !! id = None ∨ result3 !! id = Some None)) as Hres3.
  { intros id. destruct (read_from_s3 self).
    - pose proof (fallback_loop_any _ _ _ _ _ _ _ Hloop3 id) as [Hout Hin].
      assert (id ∈ filter (λ id_, result2 !! id_ = None) ids ↔
              result2 !! id = None ∧ id ∈ ids) as Hmissing
        by apply (list_elem_of_filter (λ id_, result2 !! id_ = None)).
      split.
      + intros Hsome.
        destruct (decide (id ∈ filter (λ id_, result2 !! id_ = None) ids)) as [Hm|Hm].
        * by apply Hmissing in Hm as [_ ?].
        * rewrite (Hout Hm) in Hsome. by apply Hres2 in Hsome as [? _].
      + intros Hmem Hnone Hgone. right. apply Hin.
        * rewrite Hb1. by apply Hgone.
        * left. apply Hmissing. eauto.
    - injection Hloop3 as <- <-. split.
      + intros Hsome. by apply Hres2 in Hsome as [? _].
      + intros Hmem Hnone _. left. by apply Hmiss2. }
  split.
  - apply set_eq. intros id. rewrite elem_of_dom, elem_of_list_to_set, Hall4.
    destruct (Hres3 id) as [Hkeys _]. destruct (result3 !! id) as [v|].
    + split; [|by eauto]. intros _. apply Hkeys. by eexists.
    + case_decide; [by split; eauto|]. split; [by intros []|done].
  - intros id Hmem Hnone Hgone. rewrite Hall4.
    destruct (Hres3 id) as [_ Hcase].
    destruct (Hcase Hmem Hnone Hgone) as [-> | ->]; [by rewrite decide_True | done].
Qed.

(** * Further properties of the engine *)

(** ** Frames *)

Lemma preserves_ret {A} R `{!Frame R} (a : A) : preserves R (mret a).
Proof. intros w res w' [= _ <-]. apply frame_refl. Qed.

Lemma preserves_raise {A} R `{!Frame R} e : preserves R (raise e : M A).
Proof. intros w res w' [= _ <-]. apply frame_refl. Qed.

Lemma preserves_bind {A B} R `{!Frame R} (m : M A) (k : A → M B) :
  preserves R m → (∀ a, preserves R (k a)) → preserves R (m ≫= k).
Proof.
  intros Hm Hk w res w'. rewrite bind_run.
  destruct (m w) as [[a|e] w1] eqn:Hrun; specialize (Hm _ _ _ Hrun).
  - intros Hrun'. specialize (Hk _ _ _ _ Hrun'). by eapply frame_trans.
  - by intros [= _ <-].
Qed.

Lemma preserves_try_except {A} R `{!Frame R} (body : M A) handler :
  preserves R body →
  (∀ e h, handler e = Some h → preserves R h) →
  preserves R (try_except body handler).
Proof.
  intros Hbody Hhandler w res w'. unfold try_except.
  destruct (body w) as [[a|e] w1] eqn:Hrun; specialize (Hbody _ _ _ Hrun).
  - by intros [= _ <-].
  - destruct (handler e) as [h|] eqn:Hh.
    + intros Hrun'. specialize (Hhandler _ _ Hh _ _ _ Hrun'). by eapply frame_trans.
    + by intros [= _ <-].
Qed.

Lemma preserves_client_call {A} R `{!Frame R} c (op : M A) :
  preserves R op → preserves R (client_call c op).
Proof.
  intros Hop w res w'. unfold client_call.
  destruct (faults w) as [|[e|] rest].
  - destruct (op w) as [r w1] eqn:Hrun. intros [= _ <-].
    eapply frame_trans; [exact (Hop _ _ _ Hrun) | apply frame_record].
  - intros [= _ <-]. eapply frame_trans; [apply frame_faults | apply frame_record].
  - destruct (op (set_faults rest w)) as [r w1] eqn:Hrun. intros [= _ <-].
    eapply frame_trans; [apply frame_faults|].
    eapply frame_trans; [exact (Hop _ _ _ Hrun) | apply frame_record].
Qed.

Lemma preserves_for_each {A T} R `{!Frame R} (xs : list A) (body : T → A → M T) :
  (∀ result x, preserves R (body result x)) →
  ∀ result, preserves R (for_each xs body result).
Proof.
  intros Hbody. induction xs as [|x rest IH]; intros result; simpl.
  - by apply preserves_ret.
  - apply preserves_bind; [done | apply Hbody | apply IH].
Qed.

Lemma preserves_weaken {A} (R R' : World → World → Prop) (m : M A) :
  (∀ w w', R w w' → R' w w') → preserves R m → preserves R' m.
Proof. intros Himpl Hm w res w' Hrun. apply Himpl. exact (Hm _ _ _ Hrun). Qed.

#[global] Instance writes_only_frame id : Frame (writes_only id).
Proof.
  split; try done.
  intros w1 w2 w3 (Hc & Hb & Hi) (Hc' & Hb' & Hi'). split; [|split]; [|congruence..].
  intros id' Hne. by rewrite Hc', Hc.
Qed.

#[global] Instance same_tiers_frame : Frame same_tiers.
Proof.
  split; try done.
  intros w1 w2 w3 (Hc & Hb & Hi) (Hc' & Hb' & Hi'). repeat split; congruence.
Qed.

#[global] Instance same_bucket_frame : Frame same_bucket.
Proof. split; try done. unfold same_bucket. congruence. Qed.

#[global] Instance bucket_shrinks_frame : Frame bucket_shrinks.
Proof.
  split; unfold bucket_shrinks; try done; intros w1 w2 w3 H12 H23; by etrans.
Qed.

Lemma same_tiers_writes_only id w w' : same_tiers w w' → writes_only id w w'.
Proof. intros (Hc & Hb & Hi). split; [|done]. intros id' _. by rewrite Hc. Qed.

Lemma writes_only_same_bucket id w w' : writes_only id w w' → same_bucket w w'.
Proof. by intros (_ & Hb & _). Qed.

Lemma same_bucket_shrinks w w' : same_bucket w w' → bucket_shrinks w w'.
Proof. unfold same_bucket, bucket_shrinks. by intros ->. Qed.

(** The encoding choice of [_set_bytes] calls no client. *)
Lemma encoding_choice_same_world ZstdCodec self (payload : bytes) w res w' :
  (match compression self with
   | Some name =>
       if decide (name = "") then mret (payload, "")
       else
         match compression_strategies ZstdCodec !! name with
         | Some codec =>
             let compressed_data := encode codec payload in
             if decide (length compressed_data ≤ length payload)
             then mret (compressed_data, name)
             else mret (payload, "")
         | None => raise (KeyError name)
         end
   | None => mret (payload, "")
   end) w = (res, w') → w' = w.
Proof.
  destruct (compression self) as [name|]; [|by intros [= _ <-]].
  case_decide; [by intros [= _ <-]|].
  destruct (compression_strategies ZstdCodec !! name); [|by intros [= _ <-]].
  simpl. case_decide; by intros [= _ <-].
Qed.

Lemma insert_one_writes_only doc : preserves (writes_only (_id doc)) (insert_one doc).
Proof.
  apply preserves_client_call; [apply _|]. intros w res w'.
  destruct (collection w !! _id doc); intros [= _ <-]; [apply frame_refl|].
  split; [|done]. intros id' Hne. simpl. by rewrite lookup_insert_ne.
Qed.

Lemma update_one_writes_only id doc : preserves (writes_only id) (update_one id doc).
Proof.
  apply preserves_client_call; [apply _|]. intros w res w'.
  destruct (collection w !! id); [case_decide|]; intros [= _ <-]; try apply frame_refl.
  split; [|done]. intros id' Hne. simpl. by rewrite lookup_insert_ne.
Qed.

Lemma _set_bytes_writes_only ZstdCodec self id payload :
  preserves (writes_only id) (_set_bytes ZstdCodec self id payload).
Proof.
  unfold _set_bytes. apply preserves_bind; [apply _| |].
  { intros w res w' Hrun. apply encoding_choice_same_world in Hrun as ->.
    apply frame_refl. }
  intros [stored tag]. apply preserves_bind; [apply _| |].
  { intros w res w' [= _ <-]. apply frame_refl. }
  intros created_dt. apply preserves_try_except; [apply _| |].
  - apply (insert_one_writes_only {| _id := id; data := stored;
             content_encoding := tag; created_day := created_dt |}).
  - intros e h. destruct (isinstance_DuplicateKeyError e); [|done]. intros [= <-].
    apply update_one_writes_only.
Qed.

(** ** Writes *)

(** X1. A write changes nothing but the record of its id: whatever the
    services do and whether it returns or raises, every other record, the
    bucket and the indexes are as before. *)
Theorem set_bytes_touches_one_record ZstdCodec self id payload w res w' :
  _set_bytes ZstdCodec self id payload w = (res, w') →
  (∀ id', id' ≠ id → collection w' !! id' = collection w !! id') ∧
  bucket w' = bucket w ∧ indexes w' = indexes w.
Proof. intros Hrun. exact (_set_bytes_writes_only _ _ _ _ _ _ _ Hrun). Qed.

Lemma set_bytes_touches_one_record_witness :
  (∀ id', id' ≠ "e9" →
     collection (_set_bytes ZeroRunCodec example_storage "e9" [Byte.x61] warm_world).2 !! id'
     = collection warm_world !! id') ∧
  bucket (_set_bytes ZeroRunCodec example_storage "e9" [Byte.x61] warm_world).2
    = bucket warm_world ∧
  indexes (_set_bytes ZeroRunCodec example_storage "e9" [Byte.x61] warm_world).2
    = indexes warm_world.
Proof.
  apply (set_bytes_touches_one_record ZeroRunCodec example_storage "e9" [Byte.x61]
           warm_world (_set_bytes ZeroRunCodec example_storage "e9" [Byte.x61] warm_world).1).
  by destruct (_set_bytes ZeroRunCodec example_storage "e9" [Byte.x61] warm_world).
Defined.

(** X2. A second write to the same id replaces the record whole: it goes
    through [insert_one], which meets the record, and [update_one]; the
    collection ends as if only the second value had been written, and a
    read returns the second value. *)
Theorem overwrite ZstdCodec self id a b w :
  lossless ZstdCodec →
  compression_valid ZstdCodec self = true →
  faults w = [] →
  ∃ w1 w2 w3 events,
    _set_bytes ZstdCodec self id a w = (Ok tt, w1) ∧
    _set_bytes ZstdCodec self id b w1 = (Ok tt, w2) ∧
    collection w2 = <[id := stored_entry ZstdCodec self (utcnow w) b]> (collection w) ∧
    trace w2 = trace w1 ++ events ∧
    ev_call <$> events = [insert_one_call id; update_one_call id] ∧
    _get_bytes ZstdCodec self id w2 = (Ok (Some b), w3).
Proof.
  intros Hlossless Hvalid Hquiet.
  destruct (_set_bytes_quiet ZstdCodec self id a w)
    as (w1 & Hset1 & Hc1 & _ & _ & Hn1 & Hquiet1 & _); [done..|].
  destruct (_set_bytes_quiet ZstdCodec self id b w1)
    as (w2 & Hset2 & Hc2 & _ & _ & _ & Hquiet2 & Ht2); [done..|].
  eexists w1, w2, _, _. split; [done|]. split; [done|].
  split; [by rewrite Hc2, Hc1, Hn1, insert_insert_eq|].
  split; [exact Ht2|]. split.
  { unfold write_events. by rewrite Hc1, lookup_insert_eq. }
  rewrite (_get_bytes_primary_quiet _ _ _ (stored_entry ZstdCodec self (utcnow w1) b))
    by (by rewrite ?Hc2, ?lookup_insert_eq).
  by rewrite entry_value_stored.
Qed.

Lemma overwrite_witness :
  ∃ w1 w2 w3 events,
    _set_bytes ZeroRunCodec example_storage "e1" [Byte.x61] cold_world = (Ok tt, w1) ∧
    _set_bytes ZeroRunCodec example_storage "e1" [Byte.x00; Byte.x00; Byte.x62] w1
      = (Ok tt, w2) ∧
    collection w2 =
      <["e1" := stored_entry ZeroRunCodec example_storage (utcnow cold_world)
                  [Byte.x00; Byte.x00; Byte.x62]]> (collection cold_world) ∧
    trace w2 = trace w1 ++ events ∧
    ev_call <$> events = [insert_one_call "e1"; update_one_call "e1"] ∧
    _get_bytes ZeroRunCodec example_storage "e1" w2
      = (Ok (Some [Byte.x00; Byte.x00; Byte.x62]), w3).
Proof.
  apply (overwrite ZeroRunCodec example_storage "e1" [Byte.x61]
           [Byte.x00; Byte.x00; Byte.x62] cold_world).
  - exact ZeroRunCodec_lossless.
  - reflexivity.
  - reflexivity.
Defined.

(** X3. With a compression name that the registry does not hold, a write
    raises [KeyError] before any client call: the world is unchanged and
    nothing is stored. *)
Theorem set_bytes_unregistered_compression ZstdCodec self name id payload w :
  compression self = Some name →
  name ≠ "" →
  compression_strategies ZstdCodec !! name = None →
  _set_bytes ZstdCodec self id payload w = (Raise (KeyError name), w).
Proof.
  intros Hname Hnonempty Hnone. unfold _set_bytes. rewrite bind_run, Hname.
  rewrite decide_False by done. by rewrite Hnone.
Qed.

Lemma set_bytes_unregistered_compression_witness :
  _set_bytes ZeroRunCodec gzip_storage "e1" [Byte.x61] cold_world
    = (Raise (KeyError "gzip"), cold_world).
Proof.
  apply (set_bytes_unregistered_compression ZeroRunCodec gzip_storage "gzip" "e1"
           [Byte.x61] cold_world); [reflexivity | discriminate | reflexivity].
Defined.

(** X4. With compression unset or empty, a write stores the payload as it
    is under an empty tag, and a read returns it, whatever the codec does
    (it need not be lossless). *)
Theorem uncompressed_round_trip ZstdCodec self id payload w :
  compression self = None ∨ compression self = Some "" →
  faults w = [] →
  ∃ w1 w2,
    _set_bytes ZstdCodec self id payload w = (Ok tt, w1) ∧
    collection w1 !! id =
      Some {| e_data := payload; e_content_encoding := "";
              e_created_day := utc_midnight (utcnow w) |} ∧
    _get_bytes ZstdCodec self id w1 = (Ok (Some payload), w2).
Proof.
  intros Hoff Hquiet.
  assert (compression_valid ZstdCodec self = true) as Hvalid.
  { unfold compression_valid. by destruct Hoff as [-> | ->]. }
  assert (stored_form ZstdCodec self payload = (payload, "")) as Hform.
  { unfold stored_form. by destruct Hoff as [-> | ->]. }
  destruct (_set_bytes_quiet ZstdCodec self id payload w)
    as (w1 & Hset & Hc & _ & _ & _ & Hquiet1 & _); [done..|].
  unfold stored_entry in Hc. rewrite Hform in Hc. simpl in Hc.
  eexists w1, _. split; [done|]. split; [by rewrite Hc, lookup_insert_eq|].
  erewrite _get_bytes_primary_quiet; [|done|by rewrite Hc, lookup_insert_eq].
  reflexivity.
Qed.

Lemma uncompressed_round_trip_witness :
  ∃ w1 w2,
    _set_bytes ZeroRunCodec primary_only_storage "e1" [Byte.x00; Byte.x00; Byte.x61]
      cold_world = (Ok tt, w1) ∧
    collection w1 !! "e1" =
      Some {| e_data := [Byte.x00; Byte.x00; Byte.x61]; e_content_encoding := "";
              e_created_day := utc_midnight (utcnow cold_world) |} ∧
    _get_bytes ZeroRunCodec primary_only_storage "e1" w1
      = (Ok (Some [Byte.x00; Byte.x00; Byte.x61]), w2).
Proof.
  apply (uncompressed_round_trip ZeroRunCodec primary_only_storage "e1"
           [Byte.x00; Byte.x00; Byte.x61] cold_world); [by left | reflexivity].
Defined.

(** X5. [update_one] is not an upsert: when [insert_one] reports a
    duplicate key and no record of the id is there once [update_one] runs,
    the write returns normally and stores nothing. *)
Theorem set_bytes_lost_after_duplicate ZstdCodec self id payload msg rest w :
  compression_valid ZstdCodec self = true →
  collection w !! id = None →
  faults w = Some (DuplicateKeyError msg) :: None :: rest →
  ∃ w', _set_bytes ZstdCodec self id payload w = (Ok tt, w') ∧
    collection w' = collection w ∧
    ev_call <$> trace w' = (ev_call <$> trace w) ++ [insert_one_call id; update_one_call id].
Proof.
  intros Hvalid Hmiss Hfaults. unfold _set_bytes.
  rewrite bind_run, stored_form_valid by done.
  destruct (stored_form ZstdCodec self payload) as [stored tag].
  rewrite bind_run. unfold utcnow_midnight at 1. unfold try_except, insert_one.
  erewrite client_call_fault by exact Hfaults. simpl.
  unfold update_one. erewrite client_call_pass by reflexivity. simpl.
  rewrite Hmiss. eexists. split; [reflexivity|]. simpl. split; [done|].
  by rewrite !fmap_app, <- app_assoc.
Qed.

Lemma set_bytes_lost_after_duplicate_witness :
  ∃ w', _set_bytes ZeroRunCodec example_storage "e1" [Byte.x61]
          (with_faults [Some (DuplicateKeyError "E11000"); None] cold_world) = (Ok tt, w') ∧
    collection w' = collection (with_faults [Some (DuplicateKeyError "E11000"); None] cold_world) ∧
    ev_call <$> trace w' =
      (ev_call <$> trace (with_faults [Some (DuplicateKeyError "E11000"); None] cold_world))
      ++ [insert_one_call "e1"; update_one_call "e1"].
Proof.
  apply (set_bytes_lost_after_duplicate ZeroRunCodec example_storage "e1" [Byte.x61]
           "E11000" [] (with_faults [Some (DuplicateKeyError "E11000"); None] cold_world));
    reflexivity.
Defined.

(** ** Single-id reads *)

(** X6. A record of the primary tier answers the read alone: the only
    client call is [find_one], the bucket is not consulted even when the
    archival tier is enabled and holds the id, and no tier changes. *)
Theorem primary_hit_skips_archive ZstdCodec self id entry value w :
  faults w = [] →
  collection w !! id = Some entry →
  entry_value ZstdCodec entry = Some value →
  ∃ w', _get_bytes ZstdCodec self id w = (Ok (Some value), w') ∧
    collection w' = collection w ∧ bucket w' = bucket w ∧
    ev_call <$> trace w' = (ev_call <$> trace w) ++ [find_one_call id].
Proof.
  intros Hquiet Hhit Hvalue.
  rewrite (_get_bytes_primary_quiet _ _ _ entry) by done. rewrite Hvalue.
  eexists. split; [reflexivity|]. simpl. by rewrite fmap_app.
Qed.

Lemma primary_hit_skips_archive_witness :
  ∃ w', _get_bytes ZeroRunCodec example_storage "e1" warm_world
          = (Ok (Some [Byte.x00; Byte.x00; Byte.x61]), w') ∧
    collection w' = collection warm_world ∧ bucket w' = bucket warm_world ∧
    ev_call <$> trace w' = (ev_call <$> trace warm_world) ++ [find_one_call "e1"].
Proof.
  apply (primary_hit_skips_archive ZeroRunCodec example_storage "e1"
           {| e_data := [Byte.x02; Byte.x61]; e_content_encoding := "zstd";
              e_created_day := 1699920000%Z |}
           [Byte.x00; Byte.x00; Byte.x61] warm_world); reflexivity.
Defined.

(** X7. A record whose [content_encoding] is not a registered name (the
    empty tag included) is returned as stored, without decoding. *)
Theorem unknown_tag_returned_raw ZstdCodec self id entry w :
  faults w = [] →
  collection w !! id = Some entry →
  e_content_encoding entry ≠ "zstd" →
  (_get_bytes ZstdCodec self id w).1 = Ok (Some (e_data entry)).
Proof.
  intros Hquiet Hhit Htag.
  rewrite (_get_bytes_primary_quiet _ _ _ entry) by done.
  unfold entry_value, codec_of_tag, compression_strategies.
  by rewrite lookup_singleton_ne.
Qed.

Lemma unknown_tag_returned_raw_witness :
  (_get_bytes ZeroRunCodec example_storage "e7"
     (set_collection {[ "e7" := {| e_data := [Byte.x05; Byte.x61];
                                   e_content_encoding := "lz4";
                                   e_created_day := 0%Z |} ]} cold_world)).1
  = Ok (Some [Byte.x05; Byte.x61]).
Proof.
  apply (unknown_tag_returned_raw ZeroRunCodec example_storage "e7"
           {| e_data := [Byte.x05; Byte.x61]; e_content_encoding := "lz4";
              e_created_day := 0%Z |}
           (set_collection {[ "e7" := {| e_data := [Byte.x05; Byte.x61];
                                         e_content_encoding := "lz4";
                                         e_created_day := 0%Z |} ]} cold_world));
    [reflexivity | reflexivity | discriminate].
Defined.

(** X8. A record tagged with a registered codec whose bytes the codec
    rejects makes the read raise the codec's error; nothing is written. *)
Theorem corrupt_record_raises ZstdCodec self id entry w :
  faults w = [] →
  collection w !! id = Some entry →
  entry_value ZstdCodec entry = None →
  ∃ w', _get_bytes ZstdCodec self id w = (Raise CodecError, w') ∧
    collection w' = collection w ∧ bucket w' = bucket w.
Proof.
  intros Hquiet Hhit Hvalue.
  rewrite (_get_bytes_primary_quiet _ _ _ entry) by done. rewrite Hvalue.
  eexists. split; [reflexivity|]. done.
Qed.

Lemma corrupt_record_raises_witness :
  ∃ w', _get_bytes ZeroRunCodec example_storage "e7"
          (set_collection {[ "e7" := {| e_data := []; e_content_encoding := "zstd";
                                        e_created_day := 0%Z |} ]} cold_world)
          = (Raise CodecError, w') ∧
    collection w' = collection (set_collection
                      {[ "e7" := {| e_data := []; e_content_encoding := "zstd";
                                    e_created_day := 0%Z |} ]} cold_world) ∧
    bucket w' = bucket (set_collection
                  {[ "e7" := {| e_data := []; e_content_encoding := "zstd";
                                e_created_day := 0%Z |} ]} cold_world).
Proof.
  apply (corrupt_record_raises ZeroRunCodec example_storage "e7"
           {| e_data := []; e_content_encoding := "zstd"; e_created_day := 0%Z |}
           (set_collection {[ "e7" := {| e_data := []; e_content_encoding := "zstd";
                                         e_created_day := 0%Z |} ]} cold_world));
    reflexivity.
Defined.

(** X9. With the archival tier disabled, a read of an id the primary tier
    lacks returns the absent value after the single [find_one]: the bucket
    is not consulted, whatever it holds. *)
Theorem archive_disabled_miss ZstdCodec self id w :
  read_from_s3 self = false →
  faults w = [] →
  collection w !! id = None →
  ∃ w', _get_bytes ZstdCodec self id w = (Ok None, w') ∧
    collection w' = collection w ∧ bucket w' = bucket w ∧
    ev_call <$> trace w' = (ev_call <$> trace w) ++ [find_one_call id].
Proof.
  intros Hs3 Hquiet Hmiss. rewrite _get_bytes_fallback_quiet, Hs3 by done.
  eexists. split; [reflexivity|]. simpl. by rewrite fmap_app.
Qed.

Lemma archive_disabled_miss_witness :
  ∃ w', _get_bytes ZeroRunCodec primary_only_storage "e2" warm_world = (Ok None, w') ∧
    collection w' = collection warm_world ∧ bucket w' = bucket warm_world ∧
    ev_call <$> trace w' = (ev_call <$> trace warm_world) ++ [find_one_call "e2"].
Proof.
  apply (archive_disabled_miss ZeroRunCodec primary_only_storage "e2" warm_world);
    reflexivity.
Defined.

(** X10. A read of an id that is in neither tier returns the absent value
    after one [find_one] and one [get_object], and changes no tier. *)
Theorem absent_everywhere ZstdCodec self id w :
  read_from_s3 self = true →
  faults w = [] →
  collection w !! id = None →
  bucket w !! archive_key self id = None →
  ∃ w', _get_bytes ZstdCodec self id w = (Ok None, w') ∧
    collection w' = collection w ∧ bucket w' = bucket w ∧
    ev_call <$> trace w' =
      (ev_call <$> trace w) ++
      [find_one_call id; get_object_call (bucket_name self) (__get_key_for_id self id)].
Proof.
  intros Hs3 Hquiet Hmiss Hgone. rewrite _get_bytes_fallback_quiet, Hs3 by done.
  rewrite __read_from_bucket_miss_quiet by done.
  eexists. split; [reflexivity|]. simpl. by rewrite !fmap_app, <- app_assoc.
Qed.

Lemma absent_everywhere_witness :
  ∃ w', _get_bytes ZeroRunCodec example_storage "ghost" cold_world = (Ok None, w') ∧
    collection w' = collection cold_world ∧ bucket w' = bucket cold_world ∧
    ev_call <$> trace w' =
      (ev_call <$> trace cold_world) ++
      [find_one_call "ghost";
       get_object_call (bucket_name example_storage)
         (__get_key_for_id example_storage "ghost")].
Proof.
  apply (absent_everywhere ZeroRunCodec example_storage "ghost" cold_world); reflexivity.
Defined.

(** X11. After a migrating read, the next read of the id is answered by
    the primary tier alone and returns the same value. *)
Theorem read_after_migration ZstdCodec self id obj value w :
  lossless ZstdCodec →
  read_from_s3 self = true →
  compression_valid ZstdCodec self = true →
  faults w = [] →
  collection w !! id = None →
  bucket w !! archive_key self id = Some obj →
  object_value ZstdCodec obj = Some value →
  ∃ w1 w2,
    _get_bytes ZstdCodec self id w = (Ok (Some value), w1) ∧
    _get_bytes ZstdCodec self id w1 = (Ok (Some value), w2) ∧
    collection w2 = collection w1 ∧ bucket w2 = bucket w1 ∧
    ev_call <$> trace w2 = (ev_call <$> trace w1) ++ [find_one_call id].
Proof.
  intros Hlossless Hs3 Hvalid Hquiet Hmiss Hhit Hvalue.
  destruct (_get_bytes_migrates ZstdCodec self id obj value w)
    as (w1 & Hrun & Hc & _ & Hquiet1 & _); [done..|].
  eexists w1, _. split; [done|].
  rewrite (_get_bytes_primary_quiet _ _ _ (stored_entry ZstdCodec self (utcnow w) value))
    by (by rewrite ?Hc, ?lookup_insert_eq).
  rewrite entry_value_stored by done. split; [reflexivity|]. simpl.
  by rewrite fmap_app.
Qed.

Lemma read_after_migration_witness :
  ∃ w1 w2,
    _get_bytes ZeroRunCodec example_storage "e2" cold_world
      = (Ok (Some (String.list_byte_of_string "cold")), w1) ∧
    _get_bytes ZeroRunCodec example_storage "e2" w1
      = (Ok (Some (String.list_byte_of_string "cold")), w2) ∧
    collection w2 = collection w1 ∧ bucket w2 = bucket w1 ∧
    ev_call <$> trace w2 = (ev_call <$> trace w1) ++ [find_one_call "e2"].
Proof.
  apply (read_after_migration ZeroRunCodec example_storage "e2"
           {| Body := String.list_byte_of_string "cold"; ContentEncoding := None |}
           (String.list_byte_of_string "cold") cold_world);
    [exact ZeroRunCodec_lossless | reflexivity..].
Defined.

(** ** Migration when the write fails *)

(** X12. The migrating read deletes the archival object before it writes:
    with a compression name that the registry does not hold, the write
    raises [KeyError] after the delete, the read fails with it, and the
    value is left in neither tier. *)
Theorem migration_loses_value_on_key_error ZstdCodec self name id obj value w :
  read_from_s3 self = true →
  compression self = Some name →
  name ≠ "" →
  compression_strategies ZstdCodec !! name = None →
  faults w = [] →
  collection w !! id = None →
  bucket w !! archive_key self id = Some obj →
  object_value ZstdCodec obj = Some value →
  ∃ w', _get_bytes ZstdCodec self id w = (Raise (KeyError name), w') ∧
    collection w' !! id = None ∧
    bucket w' !! archive_key self id = None.
Proof.
  intros Hs3 Hname Hnonempty Hnone Hquiet Hmiss Hhit Hvalue.
  rewrite _get_bytes_fallback_quiet, Hs3 by done. unfold archive_key in *.
  unfold __read_from_bucket, try_except at 1. rewrite bind_run.
  unfold get_object. rewrite client_call_quiet by done. simpl. rewrite Hhit.
  rewrite bind_run, decode_if_run.
  unfold object_value, codec_of_metadata in Hvalue. rewrite Hvalue.
  rewrite bind_run. unfold try_except at 1. rewrite bind_run.
  unfold delete_object. rewrite client_call_quiet by done. simpl. rewrite Hhit.
  unfold _set_bytes. rewrite bind_run, Hname. rewrite decide_False by done.
  rewrite Hnone. simpl. eexists. split; [reflexivity|]. simpl.
  by rewrite lookup_delete_eq.
Qed.

Lemma migration_loses_value_on_key_error_witness :
  ∃ w', _get_bytes ZeroRunCodec gzip_storage "e2" cold_world
          = (Raise (KeyError "gzip"), w') ∧
    collection w' !! "e2" = None ∧
    bucket w' !! archive_key gzip_storage "e2" = None.
Proof.
  apply (migration_loses_value_on_key_error ZeroRunCodec gzip_storage "gzip" "e2"
           {| Body := String.list_byte_of_string "cold"; ContentEncoding := None |}
           (String.list_byte_of_string "cold") cold_world);
    [reflexivity | reflexivity | discriminate | reflexivity..].
Defined.

(** X13. Likewise when the collection fails the insert of a migrating
    read: the error (any but a duplicate key, which is retried as an
    update, and [NoSuchKey], which the handler around the delete and the
    write swallows) is raised to the reader, and the value, already
    deleted from the bucket, is in neither tier. *)
Theorem migration_loses_value_on_insert_failure ZstdCodec self id obj value e rest w :
  read_from_s3 self = true →
  compression_valid ZstdCodec self = true →
  collection w !! id = None →
  bucket w !! archive_key self id = Some obj →
  object_value ZstdCodec obj = Some value →
  isinstance_DuplicateKeyError e = false →
  isinstance_NoSuchKey e = false →
  faults w = None :: None :: None :: Some e :: rest →
  ∃ w', _get_bytes ZstdCodec self id w = (Raise e, w') ∧
    collection w' !! id = None ∧
    bucket w' !! archive_key self id = None.
Proof.
  intros Hs3 Hvalid Hmiss Hhit Hvalue Hdup Hnsk Hfaults. unfold archive_key in *.
  unfold _get_bytes. rewrite bind_run.
  unfold find_one. rewrite (client_call_pass _ _ _ _ Hfaults). simpl.
  rewrite Hmiss. simpl. rewrite Hs3.
  unfold __read_from_bucket, try_except at 1. rewrite bind_run.
  unfold get_object. erewrite client_call_pass by reflexivity. simpl.
  rewrite Hhit. rewrite bind_run, decode_if_run.
  unfold object_value, codec_of_metadata in Hvalue. rewrite Hvalue.
  rewrite bind_run. unfold try_except at 1. rewrite bind_run.
  unfold delete_object. erewrite client_call_pass by reflexivity. simpl.
  rewrite Hhit.
  unfold _set_bytes. rewrite bind_run, stored_form_valid by done.
  destruct (stored_form ZstdCodec self value) as [stored tag].
  rewrite bind_run. unfold utcnow_midnight at 1. unfold try_except at 1, insert_one.
  erewrite client_call_fault by reflexivity. rewrite Hdup, Hnsk.
  cbv beta iota. rewrite Hnsk.
  eexists. split; [reflexivity|]. simpl. by rewrite lookup_delete_eq.
Qed.

Lemma migration_loses_value_on_insert_failure_witness :
  ∃ w', _get_bytes ZeroRunCodec example_storage "e2"
          (with_faults [None; None; None; Some (ConnectionFailure "timed out")] cold_world)
          = (Raise (ConnectionFailure "timed out"), w') ∧
    collection w' !! "e2" = None ∧
    bucket w' !! archive_key example_storage "e2" = None.
Proof.
  apply (migration_loses_value_on_insert_failure ZeroRunCodec example_storage "e2"
           {| Body := String.list_byte_of_string "cold"; ContentEncoding := None |}
           (String.list_byte_of_string "cold") (ConnectionFailure "timed out") []
           (with_faults [None; None; None; Some (ConnectionFailure "timed out")] cold_world));
    reflexivity.
Defined.

(** ** Deletes *)

Lemma delete_quiet id w :
  faults w = [] →
  Storage.delete id w =
    (Ok tt, record_call (delete_one_call id) (set_collection (delete id (collection w)) w)).
Proof.
  intros Hquiet. unfold Storage.delete, delete_one. by rewrite client_call_quiet.
Qed.

Lemma delete_multi_quiet ids w :
  faults w = [] →
  Storage.delete_multi ids w =
    (Ok tt, record_call (delete_many_call ids)
              (set_collection (filter (λ kv, kv.1 ∉ ids) (collection w)) w)).
Proof.
  intros Hquiet. unfold Storage.delete_multi, delete_many. by rewrite client_call_quiet.
Qed.

Lemma lookup_filter_not_in (ids : list string) (c : gmap string Entry) id :
  filter (λ kv : string * Entry, kv.1 ∉ ids) c !! id =
    if decide (id ∈ ids) then None else c !! id.
Proof.
  case_decide as Hin.
  - apply map_lookup_filter_None. right. intros e _ Hnotin. by apply Hnotin.
  - destruct (c !! id) as [e|] eqn:Hlookup.
    + by apply map_lookup_filter_Some.
    + apply map_lookup_filter_None. by left.
Qed.

(** X14. [delete] removes the record of the primary tier only: a copy in
    the archival tier survives it, and the next read returns that copy and
    writes it back to the primary tier. *)
Theorem delete_then_read_resurrects ZstdCodec self id obj value w :
  read_from_s3 self = true →
  compression_valid ZstdCodec self = true →
  faults w = [] →
  bucket w !! archive_key self id = Some obj →
  object_value ZstdCodec obj = Some value →
  ∃ w1 w2,
    Storage.delete id w = (Ok tt, w1) ∧
    collection w1 !! id = None ∧
    bucket w1 = bucket w ∧
    _get_bytes ZstdCodec self id w1 = (Ok (Some value), w2) ∧
    collection w2 !! id = Some (stored_entry ZstdCodec self (utcnow w) value) ∧
    bucket w2 !! archive_key self id = None.
Proof.
  intros Hs3 Hvalid Hquiet Hhit Hvalue. rewrite delete_quiet by done.
  set (w1 := record_call (delete_one_call id) _).
  destruct (_get_bytes_migrates ZstdCodec self id obj value w1)
    as (w2 & Hrun & Hc & Hb & _); [done | done | done | apply lookup_delete_eq | done..|].
  exists w1, w2. split; [reflexivity|].
  split; [apply lookup_delete_eq|]. split; [done|]. split; [done|].
  by rewrite Hc, Hb, lookup_insert_eq, lookup_delete_eq.
Qed.

Lemma delete_then_read_resurrects_witness :
  ∃ w1 w2,
    Storage.delete "e1" warm_world = (Ok tt, w1) ∧
    collection w1 !! "e1" = None ∧
    bucket w1 = bucket warm_world ∧
    _get_bytes ZeroRunCodec example_storage "e1" w1
      = (Ok (Some (String.list_byte_of_string "stale")), w2) ∧
    collection w2 !! "e1"
      = Some (stored_entry ZeroRunCodec example_storage (utcnow warm_world)
                (String.list_byte_of_string "stale")) ∧
    bucket w2 !! archive_key example_storage "e1" = None.
Proof.
  apply (delete_then_read_resurrects ZeroRunCodec example_storage "e1"
           {| Body := String.list_byte_of_string "stale"; ContentEncoding := None |}
           (String.list_byte_of_string "stale") warm_world); reflexivity.
Defined.

(** X15. A write followed by a delete of the same id leaves the collection
    without the id, and a read then returns the absent value when the
    archival tier is disabled or does not hold the id; deleting an id the
    collection lacks is no error. *)
Theorem set_delete_get ZstdCodec self id v w :
  compression_valid ZstdCodec self = true →
  faults w = [] →
  read_from_s3 self = false ∨ bucket w !! archive_key self id = None →
  ∃ w1 w2 w3 w4,
    _set_bytes ZstdCodec self id v w = (Ok tt, w1) ∧
    Storage.delete id w1 = (Ok tt, w2) ∧
    collection w2 = delete id (collection w) ∧
    _get_bytes ZstdCodec self id w2 = (Ok None, w3) ∧
    Storage.delete id w3 = (Ok tt, w4) ∧
    collection w4 = collection w2.
Proof.
  intros Hvalid Hquiet Harchive.
  destruct (_set_bytes_quiet ZstdCodec self id v w)
    as (w1 & Hset & Hc1 & Hb1 & _ & _ & Hquiet1 & _); [done..|].
  set (w2 := record_call (delete_one_call id)
               (set_collection (delete id (collection w1)) w1)).
  assert (collection w2 = delete id (collection w)) as Hc2
    by (simpl; by rewrite Hc1, delete_insert_eq).
  assert (collection w2 !! id = None) as Hmiss by (rewrite Hc2; apply lookup_delete_eq).
  assert (∃ w3, _get_bytes ZstdCodec self id w2 = (Ok None, w3) ∧
                faults w3 = [] ∧ collection w3 = collection w2) as (w3 & Hget & Hquiet3 & Hc3).
  { rewrite (_get_bytes_fallback_quiet ZstdCodec self id w2) by done.
    destruct (read_from_s3 self) eqn:Hs3.
    - destruct Harchive as [|Hgone]; [done|].
      rewrite __read_from_bucket_miss_quiet; [by eexists | done | by simpl; rewrite Hb1].
    - by eexists. }
  exists w1, w2, w3. eexists. split; [done|].
  split; [by apply delete_quiet|]. split; [done|]. split; [done|].
  split; [by apply delete_quiet|]. simpl.
  rewrite Hc3. apply delete_id. done.
Qed.

Lemma set_delete_get_witness :
  ∃ w1 w2 w3 w4,
    _set_bytes ZeroRunCodec example_storage "e5" [Byte.x61] cold_world = (Ok tt, w1) ∧
    Storage.delete "e5" w1 = (Ok tt, w2) ∧
    collection w2 = delete "e5" (collection cold_world) ∧
    _get_bytes ZeroRunCodec example_storage "e5" w2 = (Ok None, w3) ∧
    Storage.delete "e5" w3 = (Ok tt, w4) ∧
    collection w4 = collection w2.
Proof.
  apply (set_delete_get ZeroRunCodec example_storage "e5" [Byte.x61] cold_world);
    [reflexivity | reflexivity | by right].
Defined.

(** X16. [delete_multi] removes, in one [delete_many] call, the records of
    exactly the listed ids: ids the collection lacks and duplicates are
    harmless, every other record stays, and the bucket is not touched. *)
Theorem delete_multi_removes_listed (ids : list string) w :
  faults w = [] →
  ∃ w', Storage.delete_multi ids w = (Ok tt, w') ∧
    (∀ id, collection w' !! id = if decide (id ∈ ids) then None else collection w !! id) ∧
    bucket w' = bucket w ∧
    ev_call <$> trace w' = (ev_call <$> trace w) ++ [delete_many_call ids].
Proof.
  intros Hquiet. rewrite delete_multi_quiet by done.
  eexists. split; [reflexivity|]. simpl.
  split; [intros id; apply lookup_filter_not_in|]. split; [done|].
  by rewrite fmap_app.
Qed.

Lemma delete_multi_removes_listed_witness :
  ∃ w', Storage.delete_multi ["e1"; "ghost"; "e1"] warm_world = (Ok tt, w') ∧
    (∀ id, collection w' !! id =
       if decide (id ∈ ["e1"; "ghost"; "e1"]) then None else collection warm_world !! id) ∧
    bucket w' = bucket warm_world ∧
    ev_call <$> trace w' =
      (ev_call <$> trace warm_world) ++ [delete_many_call ["e1"; "ghost"; "e1"]].
Proof.
  apply (delete_multi_removes_listed ["e1"; "ghost"; "e1"] warm_world). reflexivity.
Defined.

Lemma delete_loop_quiet (ids : list string) :
  ∀ w, faults w = [] →
  ∃ w', for_each ids (λ _ id, Storage.delete id) tt w = (Ok tt, w') ∧
    faults w' = [] ∧
    ∀ id, collection w' !! id = if decide (id ∈ ids) then None else collection w !! id.
Proof.
  induction ids as [|x rest IH]; intros w Hquiet.
  { exists w. split; [reflexivity|]. split; [done|]. intros id.
    by rewrite decide_False by apply not_elem_of_nil. }
  destruct (IH (record_call (delete_one_call x)
                  (set_collection (delete x (collection w)) w)))
    as (w' & Hloop & Hquiet' & Hall); [done|].
  exists w'. split.
  { simpl. rewrite bind_run, delete_quiet by done. exact Hloop. }
  split; [done|]. intros id. rewrite Hall. simpl.
  destruct (decide (id = x)) as [->|Hne].
  - rewrite lookup_delete_eq.
    rewrite (decide_True (P := x ∈ x :: rest)) by (apply elem_of_cons; by left).
    by case_decide.
  - rewrite lookup_delete_ne by done.
    destruct (decide (id ∈ rest)).
    + rewrite decide_True; [done | apply elem_of_cons; by right].
    + rewrite decide_False; [done|]. by apply not_elem_of_cons.
Qed.

(** X17. [delete_multi] leaves the collection as a [delete] of each listed
    id, one after the other, does. *)
Theorem delete_multi_as_deletes (ids : list string) w :
  faults w = [] →
  (for_each ids (λ _ id, Storage.delete id) tt w).1 = Ok tt ∧
  (Storage.delete_multi ids w).1 = Ok tt ∧
  collection (for_each ids (λ _ id, Storage.delete id) tt w).2
    = collection (Storage.delete_multi ids w).2.
Proof.
  intros Hquiet. destruct (delete_loop_quiet ids w Hquiet) as (w' & -> & _ & Hall).
  rewrite delete_multi_quiet by done. simpl. split; [done|]. split; [done|].
  apply map_eq. intros id. by rewrite Hall, lookup_filter_not_in.
Qed.

Lemma delete_multi_as_deletes_witness :
  (for_each ["e1"; "ghost"] (λ _ id, Storage.delete id) tt warm_world).1 = Ok tt ∧
  (Storage.delete_multi ["e1"; "ghost"] warm_world).1 = Ok tt ∧
  collection (for_each ["e1"; "ghost"] (λ _ id, Storage.delete id) tt warm_world).2
    = collection (Storage.delete_multi ["e1"; "ghost"] warm_world).2.
Proof.
  apply (delete_multi_as_deletes ["e1"; "ghost"] warm_world). reflexivity.
Defined.

(** ** Construction: provisioning the TTL index *)

Lemma init_quiet self days w :
  default_ttl_days self = Some days →
  days ≠ 0%Z →
  faults w = [] →
  ∃ w', __init__ self w = (Ok tt, w') ∧
    indexes w' = <["created_day_ttl" := (days * 24 * 3600)%Z]> (indexes w) ∧
    collection w' = collection w ∧ bucket w' = bucket w ∧ faults w' = [] ∧
    ev_call <$> trace w' =
      (ev_call <$> trace w) ++
      match indexes w !! "created_day_ttl" with
      | Some old =>
          if decide (old = (days * 24 * 3600)%Z)
          then [create_index_call "created_day_ttl" (days * 24 * 3600)]
          else [create_index_call "created_day_ttl" (days * 24 * 3600);
                drop_index_call "created_day_ttl";
                create_index_call "created_day_ttl" (days * 24 * 3600)]
      | None => [create_index_call "created_day_ttl" (days * 24 * 3600)]
      end.
Proof.
  intros Hdays Hnonzero Hquiet. unfold __init__. rewrite Hdays.
  rewrite decide_False by done. unfold try_except, create_index at 1.
  rewrite client_call_quiet by done.
  destruct (indexes w !! "created_day_ttl") as [old|] eqn:Hold.
  - destruct (decide (old = (days * 24 * 3600)%Z)) as [->|Hne].
    + eexists. split; [reflexivity|]. simpl.
      split; [by rewrite insert_id|]. by rewrite fmap_app.
    + simpl. rewrite bind_run.
      unfold drop_index. rewrite client_call_quiet by done. simpl. rewrite Hold.
      unfold create_index. rewrite client_call_quiet by done. simpl.
      rewrite lookup_delete_eq. eexists. split; [reflexivity|]. simpl.
      split; [by rewrite insert_delete_eq|].
      by rewrite !fmap_app, <- !app_assoc.
  - eexists. split; [reflexivity|]. simpl. split; [done|]. by rewrite fmap_app.
Qed.

(** X18. When construction is given a non-zero [default_ttl_days] and the
    collection does not fail, it ends with the index [created_day_ttl]
    expiring after [default_ttl_days * 86400] seconds, whether the index
    was missing, present with that duration, or present with another one;
    no other index and no tier changes. *)
Theorem init_provisions_ttl_index self days w :
  default_ttl_days self = Some days →
  days ≠ 0%Z →
  faults w = [] →
  ∃ w', __init__ self w = (Ok tt, w') ∧
    indexes w' !! "created_day_ttl" = Some (days * 86400)%Z ∧
    (∀ name, name ≠ "created_day_ttl" → indexes w' !! name = indexes w !! name) ∧
    collection w' = collection w ∧ bucket w' = bucket w.
Proof.
  intros Hdays Hnonzero Hquiet.
  destruct (init_quiet self days w) as (w' & Hrun & Hi & Hc & Hb & _); [done..|].
  exists w'. split; [done|]. rewrite Hi. split.
  - rewrite lookup_insert_eq. f_equal. lia.
  - split; [|done]. intros name Hne. by rewrite lookup_insert_ne.
Qed.

Lemma init_provisions_ttl_index_witness :
  ∃ w', __init__ example_storage warm_world = (Ok tt, w') ∧
    indexes w' !! "created_day_ttl" = Some (30 * 86400)%Z ∧
    (∀ name, name ≠ "created_day_ttl" → indexes w' !! name = indexes warm_world !! name) ∧
    collection w' = collection warm_world ∧ bucket w' = bucket warm_world.
Proof.
  apply (init_provisions_ttl_index example_storage 30 warm_world);
    [reflexivity | lia | reflexivity].
Defined.

(** X19. Provisioning is idempotent: a second construction with the same
    [default_ttl_days] does not fail, makes the one [create_index] call,
    drops nothing and leaves the indexes as the first left them. *)
Theorem init_twice self days w :
  default_ttl_days self = Some days →
  days ≠ 0%Z →
  faults w = [] →
  ∃ w1 w2,
    __init__ self w = (Ok tt, w1) ∧
    __init__ self w1 = (Ok tt, w2) ∧
    indexes w2 = indexes w1 ∧
    ev_call <$> trace w2 =
      (ev_call <$> trace w1) ++ [create_index_call "created_day_ttl" (days * 24 * 3600)].
Proof.
  intros Hdays Hnonzero Hquiet.
  destruct (init_quiet self days w) as (w1 & Hrun1 & Hi1 & _ & _ & Hquiet1 & _); [done..|].
  destruct (init_quiet self days w1) as (w2 & Hrun2 & Hi2 & _ & _ & _ & Ht2); [done..|].
  exists w1, w2. split; [done|]. split; [done|]. split.
  - by rewrite Hi2, Hi1, insert_insert_eq.
  - rewrite Ht2, Hi1, lookup_insert_eq. by rewrite decide_True.
Qed.

Lemma init_twice_witness :
  ∃ w1 w2,
    __init__ example_storage warm_world = (Ok tt, w1) ∧
    __init__ example_storage w1 = (Ok tt, w2) ∧
    indexes w2 = indexes w1 ∧
    ev_call <$> trace w2 =
      (ev_call <$> trace w1) ++ [create_index_call "created_day_ttl" (30 * 24 * 3600)].
Proof.
  apply (init_twice example_storage 30 warm_world); [reflexivity | lia | reflexivity].
Defined.

(** X20. A failure of the first [create_index] that is not an
    [OperationFailure] (a connection failure, say) leaves construction as
    that exception; no index has been created or dropped. *)
Theorem init_raises_other_failures self days e rest w :
  default_ttl_days self = Some days →
  days ≠ 0%Z →
  isinstance_OperationFailure e = false →
  faults w = Some e :: rest →
  ∃ w', __init__ self w = (Raise e, w') ∧
    indexes w' = indexes w ∧
    ev_call <$> trace w' =
      (ev_call <$> trace w) ++ [create_index_call "created_day_ttl" (days * 24 * 3600)].
Proof.
  intros Hdays Hnonzero Hclass Hfaults. unfold __init__. rewrite Hdays.
  rewrite decide_False by done. unfold try_except, create_index.
  rewrite (client_call_fault _ _ _ _ _ Hfaults). rewrite Hclass.
  eexists. split; [reflexivity|]. simpl. by rewrite fmap_app.
Qed.

Lemma init_raises_other_failures_witness :
  ∃ w', __init__ example_storage
          (with_faults [Some (ConnectionFailure "connection refused")] cold_world)
          = (Raise (ConnectionFailure "connection refused"), w') ∧
    indexes w' = indexes (with_faults [Some (ConnectionFailure "connection refused")] cold_world) ∧
    ev_call <$> trace w' =
      (ev_call <$> trace (with_faults [Some (ConnectionFailure "connection refused")] cold_world))
      ++ [create_index_call "created_day_ttl" (30 * 24 * 3600)].
Proof.
  apply (init_raises_other_failures example_storage 30
           (ConnectionFailure "connection refused") []
           (with_faults [Some (ConnectionFailure "connection refused")] cold_world));
    [reflexivity | lia | reflexivity | reflexivity].
Defined.

(** X21. When the index exists with another duration, it is dropped
    before it is created anew, and a failure of the second [create_index]
    is raised from inside the handler, whatever its class: construction
    fails and the collection is left without the TTL index. *)
Theorem init_recreate_failure_leaves_no_index self days old e rest w :
  default_ttl_days self = Some days →
  days ≠ 0%Z →
  indexes w !! "created_day_ttl" = Some old →
  old ≠ (days * 24 * 3600)%Z →
  faults w = None :: None :: Some e :: rest →
  ∃ w', __init__ self w = (Raise e, w') ∧
    indexes w' !! "created_day_ttl" = None.
Proof.
  intros Hdays Hnonzero Hold Hne Hfaults. unfold __init__. rewrite Hdays.
  rewrite decide_False by done. unfold try_except, create_index at 1.
  rewrite (client_call_pass _ _ _ _ Hfaults). simpl. rewrite Hold.
  rewrite decide_False by done. simpl. rewrite bind_run.
  unfold drop_index. erewrite client_call_pass by reflexivity. simpl. rewrite Hold.
  unfold create_index. erewrite client_call_fault by reflexivity.
  eexists. split; [reflexivity|]. simpl. apply lookup_delete_eq.
Qed.

Lemma init_recreate_failure_leaves_no_index_witness :
  ∃ w', __init__ example_storage
          (with_faults [None; None; Some (OperationFailure "not authorized")] warm_world)
          = (Raise (OperationFailure "not authorized"), w') ∧
    indexes w' !! "created_day_ttl" = None.
Proof.
  apply (init_recreate_failure_leaves_no_index example_storage 30 86400
           (OperationFailure "not authorized") []
           (with_faults [None; None; Some (OperationFailure "not authorized")] warm_world));
    [reflexivity | lia | reflexivity | lia | reflexivity].
Defined.

(** ** Batched reads, stage by stage *)

(** A batched read that returns, on a world without failures, went
    through its three loops: decoding the documents found, reading the
    bucket for the ids still missing, and filling in the absent value. *)
Lemma _get_bytes_multi_stages ZstdCodec self (ids : list string) w result w' :
  faults w = [] →
  _get_bytes_multi ZstdCodec self ids w = (Ok result, w') →
  ∃ result2 result3 : gmap string (option bytes),
    for_each ((λ kv, doc_of kv.1 kv.2) <$>
                map_to_list (filter (λ kv, kv.1 ∈ ids) (collection w)))
      (λ result doc,
         let codec := compression_strategies ZstdCodec !! content_encoding doc in
         v ← decode_if codec (data doc);
         mret (<[_id doc := Some v]> result)) ∅ (record_call (find_call ids) w)
      = (Ok result2, record_call (find_call ids) w) ∧
    (if read_from_s3 self
     then for_each (filter (λ id_, result2 !! id_ = None) ids)
            (λ result id_,
               v ← __read_from_bucket ZstdCodec self id_;
               mret (<[id_ := v]> result)) result2 (record_call (find_call ids) w)
          = (Ok result3, w')
     else result3 = result2 ∧ w' = record_call (find_call ids) w) ∧
    ∀ id, result !! id =
      match result3 !! id with
      | Some v => Some v
      | None => if decide (id ∈ ids) then Some None else None
      end.
Proof.
  intros Hquiet. unfold _get_bytes_multi. rewrite bind_run, find_quiet by done.
  cbv zeta. rewrite bind_run.
  match goal with |- context [for_each ?docs ?body ∅ ?w1] =>
    destruct (for_each docs body ∅ w1) as [[result2|e] w2] eqn:Hloop2; [|done] end.
  pose proof Hloop2 as Hsame.
  apply (decode_loop_any ZstdCodec) in Hsame as [-> _].
  rewrite bind_run.
  match goal with |- context [(if read_from_s3 self then ?m else ?m') ?w1] =>
    destruct ((if read_from_s3 self then m else m') w1) as [[result3|e] w3] eqn:Hloop3;
      [|done] end.
  rewrite bind_run.
  destruct (fill_loop_run ids result3 w3) as (result4 & Hloop4 & Hall4).
  rewrite Hloop4. intros [= <- <-].
  exists result2, result3. split; [done|]. split; [|done].
  destruct (read_from_s3 self); [done|]. by injection Hloop3 as <- <-.
Qed.

Lemma found_docs_NoDup (ids : list string) (c : gmap string Entry) :
  NoDup (_id <$> ((λ kv, doc_of kv.1 kv.2) <$>
                    map_to_list (filter (λ kv, kv.1 ∈ ids) c))).
Proof.
  rewrite <- list_fmap_compose.
  rewrite (list_fmap_ext _ fst (map_to_list (filter (λ kv, kv.1 ∈ ids) c)))
    by (by intros ? []).
  apply NoDup_fst_map_to_list.
Qed.

Lemma found_docs_elem_of (ids : list string) (c : gmap string Entry) id e :
  id ∈ ids → c !! id = Some e →
  doc_of id e ∈ ((λ kv, doc_of kv.1 kv.2) <$>
                   map_to_list (filter (λ kv, kv.1 ∈ ids) c)).
Proof.
  intros Hin Hlookup. apply list_elem_of_fmap. exists (id, e). split; [done|].
  apply elem_of_map_to_list. by apply map_lookup_filter_Some.
Qed.

(** The decoding loop gives every document, under its [_id], its value. *)
Lemma decode_loop_values ZstdCodec docs :
  ∀ (result : gmap string (option bytes)) w result' w',
  NoDup (_id <$> docs) →
  for_each docs (λ result doc,
    let codec := compression_strategies ZstdCodec !! content_encoding doc in
    v ← decode_if codec (data doc);
    mret (<[_id doc := Some v]> result)) result w = (Ok result', w') →
  ∀ doc, doc ∈ docs →
    ∃ v, decoded (compression_strategies ZstdCodec !! content_encoding doc) (data doc) = Some v ∧
         result' !! _id doc = Some (Some v).
Proof.
  induction docs as [|d rest IH]; intros result w result' w' Hnodup.
  { intros _ doc Hin. by apply not_elem_of_nil in Hin. }
  rewrite fmap_cons in Hnodup. apply NoDup_cons in Hnodup as [Hfresh Hnodup].
  simpl. rewrite bind_run, bind_run, decode_if_run.
  destruct (decoded _ (data d)) as [v|] eqn:Hv; [|done].
  intros Hloop doc Hmem. apply elem_of_cons in Hmem as [->|Hmem].
  - exists v. split; [done|].
    destruct (decode_loop_any _ _ _ _ _ _ Hloop) as [_ Hall].
    destruct (Hall (_id d)) as [Hout _]. rewrite (Hout Hfresh).
    by rewrite lookup_insert_eq.
  - exact (IH _ _ _ _ Hnodup Hloop doc Hmem).
Qed.

(** The decoding loop stops at the first document that does not decode. *)
Lemma decode_loop_corrupt ZstdCodec docs :
  ∀ (result : gmap string (option bytes)) w,
  Exists (λ doc, decoded (compression_strategies ZstdCodec !! content_encoding doc)
                   (data doc) = None) docs →
  for_each docs (λ result doc,
    let codec := compression_strategies ZstdCodec !! content_encoding doc in
    v ← decode_if codec (data doc);
    mret (<[_id doc := Some v]> result)) result w = (Raise CodecError, w).
Proof.
  induction docs as [|d rest IH]; intros result w Hbad.
  { by apply Exists_nil in Hbad. }
  simpl. rewrite bind_run, bind_run, decode_if_run.
  destruct (decoded _ (data d)) as [v|] eqn:Hv; [|done].
  apply Exists_cons in Hbad as [Hbad|Hbad]; [congruence|].
  by apply IH.
Qed.

(** The fallback loop gives the absent value to an id it reads twice. *)
Lemma fallback_loop_repeat ZstdCodec self id xs :
  ∀ (result : gmap string (option bytes)) w,
  faults w = [] →
  compression_valid ZstdCodec self = true →
  bucket_decodable ZstdCodec (bucket w) →
  2 ≤ occurrences id xs →
  ∃ result' w',
    for_each xs (λ result id_,
      v ← __read_from_bucket ZstdCodec self id_;
      mret (<[id_ := v]> result)) result w = (Ok result', w') ∧
    result' !! id = Some None.
Proof.
  induction xs as [|x rest IH]; intros result w Hquiet Hvalid Hdec Htwice.
  { unfold occurrences in Htwice. simpl in Htwice. lia. }
  destruct (__read_from_bucket_quiet ZstdCodec self x w)
    as (v & w1 & Hrun & Hf1 & Hn1 & Hstep); [done..|].
  assert (bucket_decodable ZstdCodec (bucket w1)) as Hdec1.
  { destruct (bucket w !! archive_key self x) as [obj|].
    - destruct Hstep as (value & _ & _ & _ & ->). by apply map_Forall_delete.
    - destruct Hstep as (_ & _ & ->). done. }
  rewrite occurrences_cons in Htwice. destruct (decide (x = id)) as [->|Hne].
  - assert (id ∈ rest) as Hagain.
    { unfold occurrences in Htwice.
      destruct (filter (λ x, x = id) rest) as [|y ys] eqn:Hf; [simpl in Htwice; lia|].
      assert (y ∈ filter (λ x, x = id) rest) as Hy by (rewrite Hf; apply elem_of_cons; by left).
      apply list_elem_of_filter in Hy as [-> Hy]. done. }
    assert (bucket w1 !! archive_key self id = None) as Hgone.
    { destruct (bucket w !! archive_key self id) as [obj|] eqn:Hobj.
      - destruct Hstep as (value & _ & _ & _ & ->). apply lookup_delete_eq.
      - destruct Hstep as (_ & _ & ->). done. }
    destruct (fallback_loop_quiet ZstdCodec self rest (<[id := v]> result) w1)
      as (result' & w' & Hloop & _ & _ & _ & Hall); [done..|].
    exists result', w'. split.
    { simpl. rewrite bind_run, bind_run, Hrun. exact Hloop. }
    destruct (Hall id) as [_ Hin]. destruct (Hin Hagain) as [_ Hcase].
    rewrite Hgone in Hcase. by destruct Hcase.
  - destruct (IH (<[x := v]> result) w1) as (result' & w' & Hloop & Hnone); [done..|].
    exists result', w'. split; [|done].
    simpl. rewrite bind_run, bind_run, Hrun. exact Hloop.
Qed.

(** X22. A batched read gives every input id that the primary tier holds
    the decoded value of its record, and on a world without failures it
    leaves every record that existed before as it was. *)
Theorem batched_primary_hits ZstdCodec self (ids : list string) w :
  faults w = [] →
  collection_decodable ZstdCodec (collection w) →
  archive_ready ZstdCodec self w →
  ∃ result w',
    _get_bytes_multi ZstdCodec self ids w = (Ok result, w') ∧
    ∀ id entry, collection w !! id = Some entry →
      collection w' !! id = Some entry ∧
      (id ∈ ids → ∃ value, entry_value ZstdCodec entry = Some value ∧
                           result !! id = Some (Some value)).
Proof.
  intros Hquiet Hcdec Hready.
  destruct (_get_bytes_multi_quiet ZstdCodec self ids w)
    as (result & w' & Hrun & _); [done..|].
  exists result, w'. split; [done|].
  destruct (_get_bytes_multi_stages _ _ _ _ _ _ Hquiet Hrun)
    as (result2 & result3 & Hloop2 & Hloop3 & Hfill).
  pose proof (decode_loop_values _ _ _ _ _ _ (found_docs_NoDup ids (collection w)) Hloop2)
    as Hvalues.
  pose proof (decode_loop_any _ _ _ _ _ _ Hloop2) as [_ Hall2].
  intros id entry Hentry.
  assert (id ∈ ids → ∃ value, entry_value ZstdCodec entry = Some value ∧
                              result2 !! id = Some (Some value)) as Hhit2.
  { intros Hin. exact (Hvalues _ (found_docs_elem_of ids _ _ _ Hin Hentry)). }
  assert (id ∉ ids → result2 !! id = None) as Hout2.
  { intros Hnotin. destruct (Hall2 id) as [Hout _]. rewrite Hout; [done|].
    rewrite found_docs_ids. by intros [? _]. }
  destruct (read_from_s3 self) eqn:Hs3.
  - destruct (Hready Hs3) as [Hvalid Hbdec].
    destruct (fallback_loop_quiet ZstdCodec self (filter (λ id_, result2 !! id_ = None) ids)
                result2 (record_call (find_call ids) w))
      as (result3' & w3 & Hloop3' & _ & _ & _ & Hall3); [done..|].
    rewrite Hloop3 in Hloop3'. injection Hloop3' as <- <-.
    assert (id ∉ filter (λ id_, result2 !! id_ = None) ids) as Hnotmissing.
    { intros Hm. apply (list_elem_of_filter (λ id_, result2 !! id_ = None)) in Hm as [Hnone Hin].
      destruct (Hhit2 Hin) as (value & _ & Hsome). congruence. }
    destruct (Hall3 id) as [Hout _]. destruct (Hout Hnotmissing) as (Hr3 & Hc3 & _).
    split; [by rewrite Hc3|].
    intros Hin. destruct (Hhit2 Hin) as (value & Hvalue & Hsome).
    exists value. split; [done|]. by rewrite Hfill, Hr3, Hsome.
  - destruct Hloop3 as [-> ->]. split; [done|].
    intros Hin. destruct (Hhit2 Hin) as (value & Hvalue & Hsome).
    exists value. split; [done|]. by rewrite Hfill, Hsome.
Qed.

Lemma batched_primary_hits_witness :
  ∃ result w',
    _get_bytes_multi ZeroRunCodec example_storage ["e2"; "e1"] warm_world = (Ok result, w') ∧
    ∀ id entry, collection warm_world !! id = Some entry →
      collection w' !! id = Some entry ∧
      (id ∈ ["e2"; "e1"] → ∃ value, entry_value ZeroRunCodec entry = Some value ∧
                                    result !! id = Some (Some value)).
Proof.
  apply (batched_primary_hits ZeroRunCodec example_storage ["e2"; "e1"] warm_world).
  - reflexivity.
  - apply map_Forall_singleton. by eexists.
  - intros _. split; [reflexivity|].
    apply map_Forall_insert_2; [by eexists|]. apply map_Forall_singleton. by eexists.
Defined.

(** X23. The fallback loop of the batched read runs once for every
    occurrence of a missing id: an id that is in the archival tier only
    and is listed twice or more is migrated by the first read and mapped
    to the absent value by the next, which finds the object gone. *)
Theorem batched_duplicate_archival_id ZstdCodec self (ids : list string) id obj w :
  read_from_s3 self = true →
  compression_valid ZstdCodec self = true →
  faults w = [] →
  collection_decodable ZstdCodec (collection w) →
  bucket_decodable ZstdCodec (bucket w) →
  2 ≤ occurrences id ids →
  collection w !! id = None →
  bucket w !! archive_key self id = Some obj →
  ∃ result w',
    _get_bytes_multi ZstdCodec self ids w = (Ok result, w') ∧
    result !! id = Some None ∧
    is_Some (collection w' !! id) ∧
    bucket w' !! archive_key self id = None.
Proof.
  intros Hs3 Hvalid Hquiet Hcdec Hbdec Htwice Hmiss Hobj.
  assert (id ∈ ids) as Hin.
  { unfold occurrences in Htwice.
    destruct (filter (λ x, x = id) ids) as [|y ys] eqn:Hf; [simpl in Htwice; lia|].
    assert (y ∈ filter (λ x, x = id) ids) as Hy by (rewrite Hf; apply elem_of_cons; by left).
    apply list_elem_of_filter in Hy as [-> Hy]. done. }
  destruct (_get_bytes_multi_quiet ZstdCodec self ids w)
    as (result & w' & Hrun & _ & _ & Hhit); [done | done | by intros _ |].
  exists result, w'. split; [done|].
  destruct (Hhit id obj Hs3 Hin Hmiss Hobj) as (value & _ & Hc & Hb & _).
  split; [|by rewrite Hc; eauto].
  destruct (_get_bytes_multi_stages _ _ _ _ _ _ Hquiet Hrun)
    as (result2 & result3 & Hloop2 & Hloop3 & Hfill).
  rewrite Hs3 in Hloop3.
  assert (result2 !! id = None) as Hnone2.
  { pose proof (decode_loop_any _ _ _ _ _ _ Hloop2) as [_ Hall2].
    destruct (Hall2 id) as [Hout _]. rewrite Hout; [done|].
    rewrite found_docs_ids, Hmiss. by intros [_ []]. }
  destruct (fallback_loop_repeat ZstdCodec self id (filter (λ id_, result2 !! id_ = None) ids)
              result2 (record_call (find_call ids) w))
    as (result3' & w3 & Hloop3' & Hnone); [done..| |].
  { by rewrite (occurrences_filter (λ id_, result2 !! id_ = None)). }
  rewrite Hloop3 in Hloop3'. injection Hloop3' as <- <-.
  by rewrite Hfill, Hnone.
Qed.

Lemma batched_duplicate_archival_id_witness :
  ∃ result w',
    _get_bytes_multi ZeroRunCodec example_storage ["e2"; "ghost"; "e2"] cold_world
      = (Ok result, w') ∧
    result !! "e2" = Some None ∧
    is_Some (collection w' !! "e2") ∧
    bucket w' !! archive_key example_storage "e2" = None.
Proof.
  apply (batched_duplicate_archival_id ZeroRunCodec example_storage
           ["e2"; "ghost"; "e2"] "e2"
           {| Body := String.list_byte_of_string "cold"; ContentEncoding := None |}
           cold_world).
  - reflexivity.
  - reflexivity.
  - reflexivity.
  - apply map_Forall_empty.
  - apply map_Forall_singleton. by eexists.
  - vm_compute. lia.
  - reflexivity.
  - reflexivity.
Defined.

(** X24. One record that does not decode fails the whole batched read:
    the codec's error is raised after the [find], before the archival
    tier is read, and no tier changes. *)
Theorem batched_corrupt_record ZstdCodec self (ids : list string) id entry w :
  faults w = [] →
  id ∈ ids →
  collection w !! id = Some entry →
  entry_value ZstdCodec entry = None →
  ∃ w', _get_bytes_multi ZstdCodec self ids w = (Raise CodecError, w') ∧
    collection w' = collection w ∧ bucket w' = bucket w ∧
    ev_call <$> trace w' = (ev_call <$> trace w) ++ [find_call ids].
Proof.
  intros Hquiet Hin Hentry Hvalue. unfold _get_bytes_multi.
  rewrite bind_run, find_quiet by done. cbv zeta. rewrite bind_run.
  pose proof (decode_loop_corrupt ZstdCodec
    ((λ kv, doc_of kv.1 kv.2) <$>
       map_to_list (filter (λ kv, kv.1 ∈ ids) (collection w)))
    ∅ (record_call (find_call ids) w)) as Hloop.
  cbv zeta in Hloop. rewrite Hloop.
  { eexists. split; [reflexivity|]. simpl. by rewrite fmap_app. }
  apply Exists_exists. exists (doc_of id entry).
  split; [|exact Hvalue]. by apply found_docs_elem_of.
Qed.

Lemma batched_corrupt_record_witness :
  ∃ w', _get_bytes_multi ZeroRunCodec example_storage ["e2"; "e7"]
          (set_collection {[ "e7" := {| e_data := []; e_content_encoding := "zstd";
                                        e_created_day := 0%Z |} ]} cold_world)
          = (Raise CodecError, w') ∧
    collection w' = collection (set_collection
                      {[ "e7" := {| e_data := []; e_content_encoding := "zstd";
                                    e_created_day := 0%Z |} ]} cold_world) ∧
    bucket w' = bucket (set_collection
                  {[ "e7" := {| e_data := []; e_content_encoding := "zstd";
                                e_created_day := 0%Z |} ]} cold_world) ∧
    ev_call <$> trace w' =
      (ev_call <$> trace (set_collection
                     {[ "e7" := {| e_data := []; e_content_encoding := "zstd";
                                   e_created_day := 0%Z |} ]} cold_world))
      ++ [find_call ["e2"; "e7"]].
Proof.
  apply (batched_corrupt_record ZeroRunCodec example_storage ["e2"; "e7"] "e7"
           {| e_data := []; e_content_encoding := "zstd"; e_created_day := 0%Z |}
           (set_collection {[ "e7" := {| e_data := []; e_content_encoding := "zstd";
                                         e_created_day := 0%Z |} ]} cold_world)).
  - reflexivity.
  - apply elem_of_cons. right. apply elem_of_cons. by left.
  - reflexivity.
  - reflexivity.
Defined.

(** ** Edge cases and frames of the whole engine *)

Lemma filter_in_nil (c : gmap string Entry) :
  filter (λ kv : string * Entry, kv.1 ∈ @nil string) c = ∅.
Proof.
  apply map_empty. intros id. apply map_lookup_filter_None. right.
  intros e _ Hin. by apply not_elem_of_nil in Hin.
Qed.

(** X25. A batched read of no ids still makes its one [find] call and
    returns the empty mapping; the bucket is not consulted and no tier
    changes. *)
Theorem batched_empty ZstdCodec self w :
  faults w = [] →
  _get_bytes_multi ZstdCodec self [] w = (Ok ∅, record_call (find_call []) w).
Proof.
  intros Hquiet. unfold _get_bytes_multi. rewrite bind_run, find_quiet by done.
  rewrite filter_in_nil, map_to_list_empty. simpl.
  destruct (read_from_s3 self); reflexivity.
Qed.

Lemma batched_empty_witness :
  _get_bytes_multi ZeroRunCodec example_storage [] warm_world
    = (Ok ∅, record_call (find_call []) warm_world).
Proof. apply (batched_empty ZeroRunCodec example_storage warm_world). reflexivity. Defined.

Lemma preserves_pure {A} R `{!Frame R} (m : M A) :
  (∀ w res w', m w = (res, w') → w' = w) → preserves R m.
Proof. intros Hpure w res w' Hrun. rewrite (Hpure _ _ _ Hrun). apply frame_refl. Qed.

Lemma preserves_decode_if R `{!Frame R} codec data : preserves R (decode_if codec data).
Proof.
  apply preserves_pure; [done|]. intros w res w'. rewrite decode_if_run. by intros [= _ <-].
Qed.

Lemma preserves_find_one R `{!Frame R} id : preserves R (find_one id).
Proof.
  apply preserves_client_call; [done|]. apply preserves_pure; [done|].
  by intros w res w' [= _ <-].
Qed.

Lemma preserves_find R `{!Frame R} ids : preserves R (find ids).
Proof.
  apply preserves_client_call; [done|]. apply preserves_pure; [done|].
  by intros w res w' [= _ <-].
Qed.

Lemma preserves_decode_loop ZstdCodec R `{!Frame R} docs (result : gmap string (option bytes)) :
  preserves R (for_each docs (λ result doc,
    let codec := compression_strategies ZstdCodec !! content_encoding doc in
    v ← decode_if codec (data doc);
    mret (<[_id doc := Some v]> result)) result).
Proof.
  apply preserves_for_each; [done|]. intros r doc. cbv zeta.
  apply preserves_bind; [done | by apply preserves_decode_if |].
  intros v. by apply preserves_ret.
Qed.

Lemma preserves_fill_loop R `{!Frame R} (ids : list string)
    (result : gmap string (option bytes)) :
  preserves R (for_each ids (λ result id_,
    match result !! id_ with
    | None => mret (<[id_ := None]> result)
    | Some _ => mret result
    end) result).
Proof.
  apply preserves_for_each; [done|]. intros r id_.
  destruct (r !! id_); by apply preserves_ret.
Qed.

(** X26. With the archival tier disabled, a read, single or batched,
    writes nothing: whatever the services do and whether the read returns
    or raises, both tiers and the indexes are as before. *)
Theorem reads_without_archive_write_nothing ZstdCodec self :
  read_from_s3 self = false →
  (∀ id w res w',
     _get_bytes ZstdCodec self id w = (res, w') →
     collection w' = collection w ∧ bucket w' = bucket w ∧ indexes w' = indexes w) ∧
  (∀ ids w res w',
     _get_bytes_multi ZstdCodec self ids w = (res, w') →
     collection w' = collection w ∧ bucket w' = bucket w ∧ indexes w' = indexes w).
Proof.
  intros Hs3. split.
  - intros id. change (preserves same_tiers (_get_bytes ZstdCodec self id)).
    unfold _get_bytes. apply preserves_bind; [apply _ | apply preserves_find_one; apply _ |].
    intros [doc|].
    + cbv zeta. apply preserves_bind; [apply _ | apply preserves_decode_if; apply _ |].
      intros v. apply preserves_ret; apply _.
    + rewrite Hs3. apply preserves_ret; apply _.
  - intros ids. change (preserves same_tiers (_get_bytes_multi ZstdCodec self ids)).
    unfold _get_bytes_multi. apply preserves_bind; [apply _ | apply preserves_find; apply _ |].
    intros docs. cbv zeta.
    apply preserves_bind; [apply _ | apply (preserves_decode_loop ZstdCodec); apply _ |].
    intros result2. rewrite Hs3.
    apply preserves_bind; [apply _ | apply preserves_ret; apply _ |].
    intros result3. apply preserves_bind; [apply _ | apply preserves_fill_loop; apply _ |].
    intros result4. apply preserves_ret; apply _.
Qed.

Lemma reads_without_archive_write_nothing_witness :
  (∀ id w res w',
     _get_bytes ZeroRunCodec primary_only_storage id w = (res, w') →
     collection w' = collection w ∧ bucket w' = bucket w ∧ indexes w' = indexes w) ∧
  (∀ ids w res w',
     _get_bytes_multi ZeroRunCodec primary_only_storage ids w = (res, w') →
     collection w' = collection w ∧ bucket w' = bucket w ∧ indexes w' = indexes w).
Proof.
  apply (reads_without_archive_write_nothing ZeroRunCodec primary_only_storage).
  reflexivity.
Defined.

Lemma archive_shrinks_for_each {A T} (xs : list A) (body : T → A → M T) :
  (∀ result x, archive_shrinks (body result x)) →
  ∀ result, archive_shrinks (for_each xs body result).
Proof.
  intros Hbody. induction xs as [|x rest IH]; intros result; simpl.
  - apply archive_shrinks_ret.
  - apply archive_shrinks_bind; [apply Hbody | apply IH].
Qed.

(** X27. The engine never creates an archival object.  Writes, deletes,
    construction and cleanup leave the bucket exactly as it was; reads,
    single or batched, can only remove objects from it.  This holds
    whatever the services do and whether the operation returns or raises. *)
Theorem archive_never_written ZstdCodec self :
  (∀ id payload w res w',
     _set_bytes ZstdCodec self id payload w = (res, w') → bucket w' = bucket w) ∧
  (∀ id w res w', Storage.delete id w = (res, w') → bucket w' = bucket w) ∧
  (∀ ids w res w', Storage.delete_multi ids w = (res, w') → bucket w' = bucket w) ∧
  (∀ w res w', __init__ self w = (res, w') → bucket w' = bucket w) ∧
  (∀ cutoff w res w', cleanup cutoff w = (res, w') → bucket w' = bucket w) ∧
  (∀ id w res w', _get_bytes ZstdCodec self id w = (res, w') → bucket w' ⊆ bucket w) ∧
  (∀ ids w res w', _get_bytes_multi ZstdCodec self ids w = (res, w') → bucket w' ⊆ bucket w).
Proof.
  split; [|split; [|split; [|split; [|split; [|split]]]]].
  - intros id payload w res w' Hrun.
    exact (writes_only_same_bucket _ _ _ (_set_bytes_writes_only _ _ _ _ _ _ _ Hrun)).
  - intros id. change (preserves same_bucket (Storage.delete id)).
    apply preserves_client_call; [apply _|]. by intros w res w' [= _ <-].
  - intros ids. change (preserves same_bucket (Storage.delete_multi ids)).
    apply preserves_client_call; [apply _|]. by intros w res w' [= _ <-].
  - change (preserves same_bucket (__init__ self)). unfold __init__.
    assert (∀ secs name, preserves same_bucket (create_index secs name)) as Hcreate.
    { intros secs name. apply preserves_client_call; [apply _|]. intros w res w'.
      destruct (indexes w !! name); [case_decide|]; by intros [= _ <-]. }
    assert (∀ name, preserves same_bucket (drop_index name)) as Hdrop.
    { intros name. apply preserves_client_call; [apply _|]. intros w res w'.
      destruct (indexes w !! name); by intros [= _ <-]. }
    destruct (default_ttl_days self) as [days|]; [|apply preserves_ret; apply _].
    case_decide; [apply preserves_ret; apply _|].
    apply preserves_try_except; [apply _ | apply Hcreate |].
    intros e h. destruct (isinstance_OperationFailure e); [|done]. intros [= <-].
    destruct (contains _ _); [|apply preserves_ret; apply _].
    apply preserves_bind; [apply _ | apply Hdrop | intros; apply Hcreate].
  - by intros cutoff w res w' [= _ <-].
  - intros id. change (archive_shrinks (_get_bytes ZstdCodec self id)).
    unfold _get_bytes. apply archive_shrinks_bind.
    { apply archive_shrinks_client_call. by intros w res w' [= _ <-]. }
    intros [doc|].
    + cbv zeta. apply archive_shrinks_bind; [|intros; apply archive_shrinks_ret].
      intros w res w'. rewrite decode_if_run. by intros [= _ <-].
    + destruct (read_from_s3 self);
        [apply archive_shrinks__read_from_bucket | apply archive_shrinks_ret].
  - intros ids. change (archive_shrinks (_get_bytes_multi ZstdCodec self ids)).
    unfold _get_bytes_multi. apply archive_shrinks_bind.
    { apply archive_shrinks_client_call. by intros w res w' [= _ <-]. }
    intros docs. cbv zeta. apply archive_shrinks_bind.
    { apply archive_shrinks_for_each. intros r doc.
      apply archive_shrinks_bind; [|intros; apply archive_shrinks_ret].
      intros w res w'. rewrite decode_if_run. by intros [= _ <-]. }
    intros result2. apply archive_shrinks_bind.
    { destruct (read_from_s3 self); [|apply archive_shrinks_ret].
      apply archive_shrinks_for_each. intros r id_.
      apply archive_shrinks_bind;
        [apply archive_shrinks__read_from_bucket | intros; apply archive_shrinks_ret]. }
    intros result3. apply archive_shrinks_bind; [|intros; apply archive_shrinks_ret].
    apply archive_shrinks_for_each. intros r id_.
    destruct (r !! id_); apply archive_shrinks_ret.
Qed.

(** X28. For one configuration, two different ids never share an archival
    key, with or without a key prefix. *)
Theorem archival_keys_distinct self x y :
  x ≠ y → __get_key_for_id self x ≠ __get_key_for_id self y.
Proof.
  intros Hne Heq. apply Hne. apply (archive_key_inj self).
  unfold archive_key. by rewrite Heq.
Qed.

Lemma archival_keys_distinct_witness :
  __get_key_for_id example_storage "e1" ≠ __get_key_for_id example_storage "e2".
Proof. apply (archival_keys_distinct example_storage "e1" "e2"). discriminate. Defined.

(** X29. A write stamps [created_day] with the start of the UTC day of the
    clock, also for times before the epoch: the stamp is [86400] times the
    day number, two writes on the same day store the same record, and a
    later write never gets an earlier stamp. *)
Theorem created_day_buckets ZstdCodec self id payload w1 w2 :
  compression_valid ZstdCodec self = true →
  faults w1 = [] →
  faults w2 = [] →
  (utcnow w1 ≤ utcnow w2)%Z →
  ∃ w1' w2' e1 e2,
    _set_bytes ZstdCodec self id payload w1 = (Ok tt, w1') ∧
    _set_bytes ZstdCodec self id payload w2 = (Ok tt, w2') ∧
    collection w1' !! id = Some e1 ∧
    collection w2' !! id = Some e2 ∧
    e_created_day e1 = (86400 * (utcnow w1 `div` 86400))%Z ∧
    (e_created_day e1 ≤ e_created_day e2)%Z ∧
    ((utcnow w1 `div` 86400 = utcnow w2 `div` 86400)%Z → e1 = e2).
Proof.
  intros Hvalid Hquiet1 Hquiet2 Hle.
  destruct (_set_bytes_quiet ZstdCodec self id payload w1) as (w1' & Hset1 & Hc1 & _);
    [done..|].
  destruct (_set_bytes_quiet ZstdCodec self id payload w2) as (w2' & Hset2 & Hc2 & _);
    [done..|].
  exists w1', w2', (stored_entry ZstdCodec self (utcnow w1) payload),
    (stored_entry ZstdCodec self (utcnow w2) payload).
  split; [done|]. split; [done|].
  split; [by rewrite Hc1, lookup_insert_eq|].
  split; [by rewrite Hc2, lookup_insert_eq|].
  assert (∀ d, utc_midnight d = (86400 * (d `div` 86400))%Z) as Hmid.
  { intros d. unfold utc_midnight. pose proof (Z.div_mod d 86400). lia. }
  unfold stored_entry. simpl. rewrite !Hmid. split; [done|]. split.
  - pose proof (Z.div_le_mono (utcnow w1) (utcnow w2) 86400). lia.
  - by intros ->.
Qed.

Lemma created_day_buckets_witness :
  ∃ w1' w2' e1 e2,
    _set_bytes ZeroRunCodec example_storage "e1" [Byte.x61]
      (set_faults [] cold_world) = (Ok tt, w1') ∧
    _set_bytes ZeroRunCodec example_storage "e1" [Byte.x61] warm_world = (Ok tt, w2') ∧
    collection w1' !! "e1" = Some e1 ∧
    collection w2' !! "e1" = Some e2 ∧
    e_created_day e1 = (86400 * (utcnow (set_faults [] cold_world) `div` 86400))%Z ∧
    (e_created_day e1 ≤ e_created_day e2)%Z ∧
    ((utcnow (set_faults [] cold_world) `div` 86400 = utcnow warm_world `div` 86400)%Z →
     e1 = e2).
Proof.
  apply (created_day_buckets ZeroRunCodec example_storage "e1" [Byte.x61]
           (set_faults [] cold_world) warm_world);
    [reflexivity | reflexivity | reflexivity | simpl; lia].
Defined.

(** X30. On a primary miss, a failure of [get_object] decides the read:
    [NoSuchKey] is read as the absent value, any other failure is raised
    to the caller; in both cases nothing has been written or deleted. *)
Theorem get_object_failure ZstdCodec self id e rest w :
  read_from_s3 self = true →
  collection w !! id = None →
  faults w = None :: Some e :: rest →
  ∃ w',
    _get_bytes ZstdCodec self id w
      = (if isinstance_NoSuchKey e then Ok None else Raise e, w') ∧
    collection w' = collection w ∧ bucket w' = bucket w.
Proof.
  intros Hs3 Hmiss Hfaults. unfold _get_bytes. rewrite bind_run.
  unfold find_one. rewrite (client_call_pass _ _ _ _ Hfaults). simpl.
  rewrite Hmiss. simpl. rewrite Hs3.
  unfold __read_from_bucket, try_except at 1. rewrite bind_run.
  unfold get_object. erewrite client_call_fault by reflexivity.
  destruct (isinstance_NoSuchKey e); eexists; (split; [reflexivity|]); done.
Qed.

Lemma get_object_failure_witness :
  ∃ w',
    _get_bytes ZeroRunCodec example_storage "e2"
      (with_faults [None; Some (ClientError "AccessDenied")] cold_world)
      = (if isinstance_NoSuchKey (ClientError "AccessDenied")
         then Ok None else Raise (ClientError "AccessDenied"), w') ∧
    collection w' = collection (with_faults [None; Some (ClientError "AccessDenied")] cold_world) ∧
    bucket w' = bucket (with_faults [None; Some (ClientError "AccessDenied")] cold_world).
Proof.
  apply (get_object_failure ZeroRunCodec example_storage "e2"
           (ClientError "AccessDenied") []
           (with_faults [None; Some (ClientError "AccessDenied")] cold_world));
    reflexivity.
Defined.
